(** * get_citations.py: the publication block of an author's [_index.md]

    A shallow embedding of [src/publications_api/get_citations.py].

    Conventions of the embedding.
    - A Python [str] is a [string]; [+:+] is string concatenation.
    - The file [{author}/_index.md] is the one piece of state the script
      touches.  Every function that opens it takes its content and, when it
      writes, returns the new content.  The content is the text as the
      text-mode [open] delivers it, hence without carriage returns.  What
      a function writes is not yet such a text where it holds text from the
      page: a file written and opened again is read through [reopen], the
      newline translation of the text layer.
    - A raised exception is a [Raise] result; [None] is [None].
    - [print] calls are not modelled. *)

From Stdlib Require Import String Ascii List ZArith Lia Bool.
From stdpp Require Import base gmap strings list.

Local Open Scope Z_scope.
Local Open Scope nat_scope.

(** ** Exceptions *)

Inductive exn : Set :=
| ValueError | KeyError | TypeError | AttributeError
| RequestException. (* what [requests.get] raises: no schema, no connection *)

Inductive result (A : Type) : Type :=
| Ok (a : A)
| Raise (e : exn).
Arguments Ok {A} a.
Arguments Raise {A} e.

(** Sequencing: the first exception raised ends the computation.  With the
    two instances, [x ← r; k] is the notation for it. *)
#[global] Instance result_ret : MRet result := fun _ a => Ok a.
#[global] Instance result_bind : MBind result := fun _ _ k r =>
  match r with
  | Ok a => k a
  | Raise e => Raise e
  end.

(** ** Python text primitives *)

Module Py.

Definition LF : ascii := Ascii.ascii_of_nat 10.

(** The one-character string ["\n"]. *)
Definition nl : string := String LF "".

(** [s.endswith("\n")] *)
Fixpoint endswith_nl (s : string) : bool :=
  match s with
  | "" => false
  | String c rest =>
      match rest with
      | "" => Ascii.eqb c LF
      | String _ _ => endswith_nl rest
      end
  end.

(** [fp.readlines()]: the text cut after every ["\n"], terminators kept; a
    final stretch without terminator is a line of its own. *)
Fixpoint readlines (s : string) : list string :=
  match s with
  | "" => []
  | String c rest =>
      if Ascii.eqb c LF then nl :: readlines rest
      else match readlines rest with
           | [] => [String c ""]
           | l :: ls => String c l :: ls
           end
  end.

(** [fp.writelines(lines)] on a file opened with ["w"]: the new content is
    the lines one after the other, nothing added. *)
Fixpoint writelines (lines : list string) : string :=
  match lines with
  | [] => ""
  | l :: ls => l +:+ writelines ls
  end.

Definition CR : ascii := Ascii.ascii_of_nat 13.

(** The newline translation of a text-mode read ([newline=None]): ["\r\n"]
    and a lone ["\r"] are both delivered as ["\n"].  [after_cr] says that the
    character just read was a ["\r"], already delivered as ["\n"]. *)
Fixpoint universal_newlines (after_cr : bool) (s : string) : string :=
  match s with
  | "" => ""
  | String c rest =>
      if Ascii.eqb c CR then String LF (universal_newlines true rest)
      else if Ascii.eqb c LF then
        if after_cr then universal_newlines false rest
        else String LF (universal_newlines false rest)
      else String c (universal_newlines false rest)
  end.

(** [open(...).read()] of a file whose content was written as [written]. *)
Definition reopen (written : string) : string :=
  universal_newlines false written.

(** [s] holds no carriage return. *)
Fixpoint no_cr (s : string) : bool :=
  match s with
  | "" => true
  | String c r => negb (Ascii.eqb c CR) && no_cr r
  end.

(** [md.index(x)]: position of the first element equal to [x];
    [ValueError] when there is none. *)
Fixpoint list_index (md : list string) (x : string) : result nat :=
  match md with
  | [] => Raise ValueError
  | l :: ls =>
      if String.eqb l x then Ok 0
      else i ← list_index ls x; Ok (S i)
  end.

(** [md[:stop]], with Python's reading of a negative bound (counted from
    the end, clipped at the start). *)
Definition slice_to {A} (md : list A) (stop : Z) : list A :=
  if (stop <? 0)%Z
  then firstn (Z.to_nat (Z.of_nat (length md) + stop)) md
  else firstn (Z.to_nat stop) md.

(** [md[start:]], same convention. *)
Definition slice_from {A} (md : list A) (start : Z) : list A :=
  if (start <? 0)%Z
  then skipn (Z.to_nat (Z.of_nat (length md) + start)) md
  else skipn (Z.to_nat start) md.

(** ** The shape of a line *)

(** A terminated line: some text without ["\n"], then one ["\n"]. *)
Fixpoint full_line (l : string) : bool :=
  match l with
  | "" => false
  | String c r =>
      if Ascii.eqb c LF then match r with "" => true | _ => false end
      else full_line r
  end.

(** An unterminated line: non-empty text without ["\n"]. *)
Fixpoint open_line (l : string) : bool :=
  match l with
  | "" => false
  | String c r =>
      negb (Ascii.eqb c LF) && match r with "" => true | _ => open_line r end
  end.

(** What [readlines] returns: terminated lines, the last one possibly
    unterminated. *)
Inductive lines_ok : list string -> Prop :=
| ok_nil : lines_ok []
| ok_last l : open_line l = true -> lines_ok [l]
| ok_cons l ls : full_line l = true -> lines_ok ls -> lines_ok (l :: ls).

End Py.

Import Py.

(** ** The generated block *)

(** The two marker lines [clean_index_of_old_pubs] searches for and [main]
    writes. *)
Definition START_MARK : string := "<!-- PUBLICATIONS START -->" +:+ nl.
Definition END_MARK : string := "<!-- PUBLICATIONS END -->" +:+ nl.

(** The body of the [try] in [clean_index_of_old_pubs], up to the slice. *)
Definition clean_md (md : list string) : result (list string) :=
  publication_begins ← list_index md START_MARK;
  publication_ends ← list_index md END_MARK;
  Ok (slice_to md (Z.of_nat publication_begins - 1)
      ++ slice_from md (Z.of_nat publication_ends + 1)).

(** [clean_index_of_old_pubs]: from the content of [_index.md] to its content
    afterwards.  The file is rewritten only when both [index] calls succeed;
    the [ValueError] of either is caught and the file is left as it is. *)
Definition clean_index_of_old_pubs (index_md : string) : string :=
  match clean_md (readlines index_md) with
  | Ok lines => writelines lines
  | Raise _ => index_md
  end.

(** A publication as [parse_row] builds it: a dict with exactly the keys
    ["title"], ["authors"] and ["year"]. *)
Record publication : Set := {
  title : string;
  authors : string;
  year : string;
}.

(** [publication_to_md] *)
Definition publication_to_md (p : publication) : string :=
  let md := "- **" +:+ title p +:+ "** (" +:+ year p +:+ ")" +:+ nl in
  md +:+ "  - " +:+ authors p +:+ nl.

Definition DONT_TOUCH : string :=
  "<!-- This content is automatically generated by get_citations.py. Don't touch -->"
  +:+ nl.

(** The variable [annex] of [main] when the loop over [publications] is
    done and the end marker is added. *)
Definition annex (publications : list publication) : string :=
  let annex := START_MARK in
  let annex := annex +:+ DONT_TOUCH in
  let annex := annex +:+ nl +:+ nl +:+ "## Publications" +:+ nl in
  let annex := foldl (fun annex pub => annex +:+ publication_to_md pub)
                     annex publications in
  annex +:+ END_MARK.

(** The variable [new_index] of [main]: what is written back to [_index.md],
    from [old_index] (the content read after the cleaning) and the fetched
    publications. *)
Definition new_index (old_index : string) (publications : list publication)
  : string :=
  let old_index :=
    if negb (endswith_nl old_index) then old_index +:+ nl else old_index in
  old_index +:+ annex publications +:+ nl.

(** What one iteration of [main] does to [_index.md] once the publications
    are there: [clean_index_of_old_pubs], then the write of [new_index]. *)
Definition updateDocument (index_md : string) (publications : list publication)
  : string :=
  new_index (clean_index_of_old_pubs index_md) publications.

(** ** The page: BeautifulSoup's tree *)

Module Soup.

(** A parsed page.  Of a tag's attributes only [class] is kept (a list of
    names, as bs4 stores it); it is the only one the script looks at. *)
#[warnings="-register-all"]
Inductive PageElement : Type :=
| Tag (name : string) (class_ : list string) (contents : list PageElement)
| NavigableString (text : string).

(** [tag.descendants]: every node below the tag, in document order. *)
Fixpoint descendants (e : PageElement) : list PageElement :=
  match e with
  | Tag _ _ contents =>
      (fix go (cs : list PageElement) : list PageElement :=
         match cs with
         | [] => []
         | c :: cs => c :: descendants c ++ go cs
         end) contents
  | NavigableString _ => []
  end.

(** The test [find_all(name, {"class": cls})] applies to a node: a tag of
    that name, one of whose class names is [cls]. *)
Definition search (name : string) (cls : option string) (e : PageElement)
  : bool :=
  match e with
  | Tag n classes _ =>
      String.eqb n name
      && match cls with
         | None => true
         | Some c => existsb (String.eqb c) classes
         end
  | NavigableString _ => false
  end.

(** The loop of bs4's [_find_all] over the generator (bs4 4.x up to 4.12;
    the library is not part of the repository):
<<
    if found:
        results.append(found)
        if limit and len(results) >= limit:
            break
>>
    [limit] is a Python int or [None]; [if limit] is false for [None] and
    for [0]. *)
Fixpoint _find_all (found : PageElement -> bool) (limit : option Z)
    (generator results : list PageElement) : list PageElement :=
  match generator with
  | [] => results
  | i :: generator =>
      if found i then
        let results := results ++ [i] in
        match limit with
        | Some n =>
            if negb (n =? 0)%Z && (Z.of_nat (length results) >=? n)%Z
            then results
            else _find_all found limit generator results
        | None => _find_all found limit generator results
        end
      else _find_all found limit generator results
  end.

(** [tag.find_all(name, {"class": cls}, limit=limit)] *)
Definition find_all (tag : PageElement) (name : string) (cls : option string)
    (limit : option Z) : list PageElement :=
  _find_all (search name cls) limit (descendants tag) [].

(** [tag.find(name, {"class": cls})]: [find_all] with [limit=1], then the
    first result or [None]. *)
Definition find (tag : PageElement) (name : string) (cls : option string)
  : option PageElement :=
  match find_all tag name cls (Some 1%Z) with
  | [] => None
  | r :: _ => Some r
  end.

(** [tag.text]: the strings below the tag, concatenated. *)
Fixpoint text (e : PageElement) : string :=
  match e with
  | Tag _ _ contents =>
      (fix go (cs : list PageElement) : string :=
         match cs with
         | [] => ""
         | c :: cs => text c +:+ go cs
         end) contents
  | NavigableString s => s
  end.

(** [x.name] for a tag name ([title.div], [title.a]): [find(name)] on a
    tag, [AttributeError] on [None]. *)
Definition getattr_tag (x : option PageElement) (name : string)
  : result (option PageElement) :=
  match x with
  | Some tag => Ok (find tag name None)
  | None => Raise AttributeError
  end.

(** [x.text], [AttributeError] on [None]. *)
Definition getattr_text (x : option PageElement) : result string :=
  match x with
  | Some e => Ok (text e)
  | None => Raise AttributeError
  end.

End Soup.

Import Soup.

(** [parse_row] *)
Definition parse_row (tr : PageElement) : result publication :=
  let title := find tr "td" (Some "gsc_a_t") in
  authors ← getattr_tag title "div";
  let year := find tr "td" (Some "gsc_a_y") in
  title_a ← getattr_tag title "a";
  title_text ← getattr_text title_a;
  authors_text ← getattr_text authors;
  year_text ← getattr_text year;
  Ok {| title := title_text; authors := authors_text; year := year_text |}.

(** The part of [get_publications] after the page is parsed: the rows, then
    the list comprehension over them. *)
Definition publications_of (soup : PageElement) (limit : option Z)
  : result (list publication) :=
  let all_rows := find_all soup "tr" (Some "gsc_a_tr") limit in
  mapM parse_row all_rows.

(** ** The profile link *)

(** One entry of the [social] list in the front matter. *)
Record social_link : Set := {
  icon : string;
  link : string;
}.

Definition default_link : string :=
  "https://scholar.google.co.uk/citations?user=sIwtMXoAAAAJ".

(** The dict comprehension [{l["icon"]: l["link"] for l in social_links}]:
    entries are stored in list order, a later one replacing an earlier one
    with the same key. *)
Definition social_dict (social_links : list social_link) : gmap string string :=
  foldl (fun d l => <[icon l := link l]> d) ∅ social_links.

(** [get_scholar_link], from the decoded [social] list on. *)
Definition scholar_link_of (social : list social_link) : option string :=
  let social_links := social_dict social in
  match social_links !! "graduation-cap" with
  | None => None
  | Some l => if String.eqb l default_link then None else Some l
  end.

Section World.

(** The two libraries that stand between the script and the outside:
    - [author_social index_md] is [frontmatter.loads(content).to_dict()["social"]]
      with its entries decoded; whatever makes this fail in Python (no front
      matter, no [social] key, an entry without [icon] or [link]) is a
      [Raise];
    - [get_soup url] is [BeautifulSoup(requests.get(url).content, "html.parser")],
      or the exception [requests.get] raises. *)
Variable author_social : string -> result (list social_link).
Variable get_soup : string -> result PageElement.

(** [get_scholar_link] *)
Definition get_scholar_link (index_md : string) : result (option string) :=
  social ← author_social index_md;
  Ok (scholar_link_of social).

(** [get_publications]; the concatenation [None + "..."] is a [TypeError]. *)
Definition get_publications (index_md : string) (limit : option Z)
  : result (list publication) :=
  scholar_link ← get_scholar_link index_md;
  url ← match scholar_link with
        | Some l => Ok (l +:+ "&view_op=list_works&sortby=pubdate")
        | None => Raise TypeError
        end;
  soup ← get_soup url;
  publications_of soup limit.

(** One iteration of the loop of [main]: the content of the author's
    [_index.md] afterwards, and how the iteration ended. *)
Definition main_author (index_md : string) : string * result unit :=
  match get_scholar_link index_md with
  | Raise e => (index_md, Raise e)
  | Ok scholar_link =>
      (* Cleans old publications *)
      let index_md := clean_index_of_old_pubs index_md in
      match scholar_link with
      | None => (index_md, Ok tt)
      | Some _ =>
          (* Updating publications *)
          match get_publications index_md (Some 5%Z) with
          | Raise e => (index_md, Raise e)
          | Ok publications => (new_index index_md publications, Ok tt)
          end
      end
  end.

(** The loop of [main] over [all_author_folders], each folder given by the
    content of its [_index.md] (the folders are distinct, so an iteration
    touches no other author's file).  An exception leaves the loop: the
    files of the authors that follow are not opened. *)
Fixpoint main (all_author_folders : list string) : list string * result unit :=
  match all_author_folders with
  | [] => ([], Ok tt)
  | author :: folders =>
      match main_author author with
      | (index_md, Ok _) =>
          let '(rest, outcome) := main folders in (index_md :: rest, outcome)
      | (index_md, Raise e) => (index_md :: folders, Raise e)
      end
  end.

End World.

(** ** Vocabulary of the statements *)

(** The entries of the block: [publication_to_md] of each publication, one
    after the other. *)
Definition entries_md (publications : list publication) : string :=
  foldr (fun pub s => publication_to_md pub +:+ s) "" publications.

Definition HEADING : string := "## Publications" +:+ nl.

(** The lines of [annex publications]. *)
Definition annex_lines (publications : list publication) : list string :=
  START_MARK :: DONT_TOUCH :: nl :: nl :: HEADING
    :: readlines (entries_md publications) ++ [END_MARK].

(** A line that is a marker, or would be one once terminated. *)
Definition marker_like (l : string) : Prop :=
  l = START_MARK \/ l = END_MARK
  \/ l +:+ nl = START_MARK \/ l +:+ nl = END_MARK.


(** The two publications of the scenario of C7, and the block expected for
    them, line by line. *)
Definition pub_A : publication :=
  {| title := "A"; authors := "X, Y"; year := "2020" |}.
Definition pub_B : publication :=
  {| title := "B"; authors := "Z"; year := "2019" |}.

(** A publication whose authors hold a carriage return and then the text of
    the end marker. *)
Definition pub_with_cr : publication :=
  {| title := "T";
     authors := "X" +:+ String CR "" +:+ "<!-- PUBLICATIONS END -->";
     year := "2021" |}.

Definition block_A_B : string :=
  "<!-- PUBLICATIONS START -->" +:+ nl
  +:+ "<!-- This content is automatically generated by get_citations.py. Don't touch -->" +:+ nl
  +:+ nl
  +:+ nl
  +:+ "## Publications" +:+ nl
  +:+ "- **A** (2020)" +:+ nl
  +:+ "  - X, Y" +:+ nl
  +:+ "- **B** (2019)" +:+ nl
  +:+ "  - Z" +:+ nl
  +:+ "<!-- PUBLICATIONS END -->" +:+ nl.

(** No line of [ls] is a marker line. *)
Definition no_marker (ls : list string) : Prop :=
  forall l, In l ls -> l <> START_MARK /\ l <> END_MARK.

(** ** Sample inputs *)

(** A row of the publication table, as the profile page lays it out. *)
Definition sample_row (t a y : string) : PageElement :=
  Tag "tr" ["gsc_a_tr"]
    [ Tag "td" ["gsc_a_t"]
        [ Tag "a" ["gsc_a_at"] [NavigableString t];
          Tag "div" ["gs_gray"] [NavigableString a];
          Tag "div" ["gs_gray"] [NavigableString "Journal"] ];
      Tag "td" ["gsc_a_c"] [Tag "a" ["gsc_a_ac"] [NavigableString "12"]];
      Tag "td" ["gsc_a_y"] [Tag "span" ["gsc_a_h"] [NavigableString y]] ].

Definition sample_page (rows : list PageElement) : PageElement :=
  Tag "[document]" []
    [ Tag "html" []
        [ Tag "body" []
            [ Tag "table" ["gsc_a_tbl"] [Tag "tbody" ["gsc_a_b"] rows] ] ] ].

Definition page_A_B : PageElement :=
  sample_page [sample_row "A" "X, Y" "2020"; sample_row "B" "Z" "2019"].

(** Front matter with a customised profile link, listed after an older
    entry of the same icon, and front matter with the default link. *)
Definition social_custom : list social_link :=
  [ {| icon := "graduation-cap"; link := "https://scholar.google.com/citations?user=old" |};
    {| icon := "twitter"; link := "https://twitter.com/ada" |};
    {| icon := "graduation-cap"; link := "https://scholar.google.com/citations?user=ada" |} ].

Definition social_default : list social_link :=
  [ {| icon := "twitter"; link := "https://twitter.com/ada" |};
    {| icon := "graduation-cap"; link := default_link |} ].

(** ** Vocabulary of the further properties *)

(** [s] holds no line terminator. *)
Fixpoint no_lf (s : string) : bool :=
  match s with
  | "" => true
  | String c r => negb (Ascii.eqb c LF) && no_lf r
  end.

(** A publication none of whose three texts holds a line terminator. *)
Definition one_line_fields (p : publication) : Prop :=
  no_lf (title p) = true /\ no_lf (year p) = true /\ no_lf (authors p) = true.

(** The two lines of an entry. *)
Definition entry_lines (p : publication) : list string :=
  [ "- **" +:+ title p +:+ "** (" +:+ year p +:+ ")" +:+ nl;
    "  - " +:+ authors p +:+ nl ].

(** [old_index] after [main] has made sure it ends with a terminator. *)
Definition terminated (old_index : string) : string :=
  if endswith_nl old_index then old_index else old_index +:+ nl.

(** The rows [get_publications] selects from, in document order. *)
Definition rows_of (soup : PageElement) : list PageElement :=
  List.filter (search "tr" (Some "gsc_a_tr")) (descendants soup).

(** The first node below [tag] that passes [search name cls]. *)
Definition first_match (tag : PageElement) (name : string)
    (cls : option string) : option PageElement :=
  head (List.filter (search name cls) (descendants tag)).

(** A parser for the sample runs: an empty file has no front matter, hence
    no [social] key; any other file stands for one with the default link. *)
Definition sample_author_social (index_md : string)
  : result (list social_link) :=
  if String.eqb index_md "" then Raise KeyError else Ok social_default.

(** * Facts about the text primitives *)

(** Closes [~ In x l] and [In x l -> _] goals on concrete lines. *)
Ltac absent_line :=
  let H := fresh in
  intros H; vm_compute in H;
  repeat (destruct H as [H|H]; [discriminate H|]); destruct H.

Module PyFacts.

Lemma app_cons c a b : String c a +:+ b = String c (a +:+ b).
Proof. reflexivity. Qed.

Lemma app_nil_l s : "" +:+ s = s.
Proof. reflexivity. Qed.

Lemma app_nil_r s : s +:+ "" = s.
Proof. induction s as [|c s IH]; [done|]. by rewrite app_cons, IH. Qed.

Lemma app_assoc a b c : (a +:+ b) +:+ c = a +:+ b +:+ c.
Proof. induction a as [|x a IH]; [done|]. by rewrite !app_cons, IH. Qed.

Lemma writelines_app a b :
  writelines (a ++ b) = writelines a +:+ writelines b.
Proof.
  induction a as [|l a IH]; simpl; [done|].
  by rewrite IH, app_assoc.
Qed.

Lemma length_app a b :
  String.length (a +:+ b) = String.length a + String.length b.
Proof. induction a as [|c a IH]; [done|]. rewrite app_cons. simpl. by rewrite IH. Qed.

Lemma length_zero s : String.length s = 0 -> s = "".
Proof. by destruct s. Qed.

Lemma LF_eqb c : Ascii.eqb c LF = true -> c = LF.
Proof. apply Ascii.eqb_eq. Qed.

(** Reading the lines and writing them back is the identity. *)
Lemma writelines_readlines s : writelines (readlines s) = s.
Proof.
  induction s as [|c s IH]; simpl; [done|].
  destruct (Ascii.eqb c LF) eqn:E.
  - apply LF_eqb in E as ->. simpl. by rewrite IH.
  - destruct (readlines s) as [|l ls]; simpl in *.
    + by rewrite <- IH.
    + by rewrite app_cons, IH.
Qed.

Lemma readlines_nil s : readlines s = [] -> s = "".
Proof. intros H. by rewrite <- (writelines_readlines s), H. Qed.

Lemma readlines_ok s : lines_ok (readlines s).
Proof.
  induction s as [|c s IH]; simpl; [constructor|].
  destruct (Ascii.eqb c LF) eqn:E.
  - by apply ok_cons.
  - destruct (readlines s) as [|l ls]; [apply ok_last; simpl; by rewrite E|].
    inversion IH as [|l' Hl|l' ls' Hl Hls]; subst.
    + apply ok_last. simpl. rewrite E. by destruct l.
    + apply ok_cons; [|done]. simpl. by rewrite E.
Qed.

Lemma readlines_full l s :
  full_line l = true -> readlines (l +:+ s) = l :: readlines s.
Proof.
  induction l as [|c l IH]; simpl; [done|].
  rewrite ?app_cons; simpl. destruct (Ascii.eqb c LF) eqn:E.
  - destruct l; [|done]. intros _. by apply LF_eqb in E as ->.
  - intros Hl. by rewrite (IH Hl).
Qed.

Lemma readlines_open l : open_line l = true -> readlines l = [l].
Proof.
  induction l as [|c l IH]; simpl; [done|].
  destruct (Ascii.eqb c LF); simpl; [done|].
  destruct l as [|c' l]; [done|]. intros Hl. by rewrite (IH Hl).
Qed.

(** Writing well-shaped lines and reading them back is the identity. *)
Lemma readlines_writelines ls :
  lines_ok ls -> readlines (writelines ls) = ls.
Proof.
  induction 1 as [|l Hl|l ls Hl Hls IH]; simpl.
  - done.
  - rewrite app_nil_r. by apply readlines_open.
  - by rewrite readlines_full, IH.
Qed.

Lemma lines_ok_app_r a b : lines_ok (a ++ b) -> lines_ok b.
Proof.
  induction a as [|l a IH]; simpl; [done|].
  inversion 1 as [|l' Hl Ha|]; subst; [|by apply IH].
  destruct a; [|done]. simpl in *. subst. constructor.
Qed.

Lemma lines_ok_app_l a b :
  lines_ok (a ++ b) -> b <> [] -> Forall (fun l => full_line l = true) a.
Proof.
  induction a as [|l a IH]; simpl; [by constructor|].
  inversion 1 as [|l' Hl Ha|]; subst; intros Hb.
  - by destruct a, b.
  - constructor; [done|by apply IH].
Qed.

Lemma lines_ok_full_app a b :
  Forall (fun l => full_line l = true) a -> lines_ok b -> lines_ok (a ++ b).
Proof. induction 1; simpl; [done|]. intros. apply ok_cons; auto. Qed.

Lemma lines_ok_skipn n ls : lines_ok ls -> lines_ok (skipn n ls).
Proof.
  intros H. rewrite <- (firstn_skipn n ls) in H. by apply lines_ok_app_r in H.
Qed.

Lemma lines_ok_firstn n ls :
  lines_ok ls -> n < length ls -> Forall (fun l => full_line l = true) (firstn n ls).
Proof.
  intros H Hn. rewrite <- (firstn_skipn n ls) in H.
  apply lines_ok_app_l in H; [done|].
  intros E. apply (f_equal (@length _)) in E. rewrite length_skipn in E.
  simpl in E. lia.
Qed.

(** [readlines] distributes over a concatenation cut at a line end. *)
Lemma readlines_app a b :
  endswith_nl a = true -> readlines (a +:+ b) = readlines a ++ readlines b.
Proof.
  induction a as [|c a IH]; [done|].
  rewrite ?app_cons; simpl. destruct a as [|c' a].
  - intros E. rewrite E. by apply LF_eqb in E as ->.
  - intros E. specialize (IH E). rewrite IH.
    destruct (Ascii.eqb c LF); [done|].
    destruct (readlines (String c' a)) as [|l ls] eqn:El; [|done].
    by apply readlines_nil in El.
Qed.

Lemma endswith_nl_app a b :
  b <> "" -> endswith_nl (a +:+ b) = endswith_nl b.
Proof.
  intros Hb. induction a as [|c a IH]; [done|].
  rewrite ?app_cons; simpl. rewrite IH.
  destruct (a +:+ b) eqn:E; [|done].
  destruct a; simpl in E; [done|discriminate].
Qed.

Lemma endswith_nl_nl s : endswith_nl (s +:+ nl) = true.
Proof. by rewrite endswith_nl_app. Qed.

Lemma full_line_endswith l : full_line l = true -> endswith_nl l = true.
Proof.
  induction l as [|c l IH]; simpl; [done|].
  destruct (Ascii.eqb c LF) eqn:E; destruct l; try done.
Qed.

End PyFacts.

(** * Facts about [index] and the slices *)

Module IndexFacts.

Lemma bind_Ok {A B} (r : result A) (k : A -> result B) b :
  (x ← r; k x) = Ok b -> exists a, r = Ok a /\ k a = Ok b.
Proof. destruct r as [a|e]; [eauto|discriminate]. Qed.

Lemma list_index_absent md x : ~ In x md -> list_index md x = Raise ValueError.
Proof.
  induction md as [|l md IH]; simpl; [done|]. intros H.
  destruct (String.eqb_spec l x) as [->|_]; [tauto|].
  rewrite IH; [done|tauto].
Qed.

Lemma list_index_Raise md x e : list_index md x = Raise e -> ~ In x md.
Proof.
  induction md as [|l md IH]; simpl; [tauto|].
  destruct (String.eqb_spec l x) as [->|Hne]; [discriminate|].
  destruct (list_index md x) as [i|e'] eqn:E; [discriminate|].
  simpl. intros [= <-] [?|?]; [done|]. by apply IH.
Qed.

(** [index] returns the first position. *)
Lemma list_index_first a b x :
  ~ In x a -> list_index (a ++ x :: b) x = Ok (length a).
Proof.
  induction a as [|l a IH]; simpl; intros H.
  - by rewrite String.eqb_refl.
  - destruct (String.eqb_spec l x) as [->|_]; [tauto|].
    rewrite IH; [done|tauto].
Qed.

Lemma list_index_Ok md x i :
  list_index md x = Ok i ->
  exists a b, md = a ++ x :: b /\ length a = i /\ ~ In x a.
Proof.
  revert i. induction md as [|l md IH]; simpl; intros i; [discriminate|].
  destruct (String.eqb_spec l x) as [->|Hne].
  - intros [= <-]. exists [], md. repeat split. tauto.
  - intros H. apply bind_Ok in H as (j & Hj & [= <-]).
    destruct (IH j Hj) as (a & b & -> & <- & Ha).
    exists (l :: a), b. repeat split. intros [?|?]; tauto.
Qed.

Lemma slice_to_nonneg {A} (md : list A) n :
  slice_to md (Z.of_nat n) = firstn n md.
Proof.
  unfold slice_to. destruct (Z.ltb_spec (Z.of_nat n) 0); [lia|].
  by rewrite Nat2Z.id.
Qed.

Lemma slice_from_nonneg {A} (md : list A) n :
  slice_from md (Z.of_nat n) = skipn n md.
Proof.
  unfold slice_from. destruct (Z.ltb_spec (Z.of_nat n) 0); [lia|].
  by rewrite Nat2Z.id.
Qed.

(** [md[:-1]] drops the last element. *)
Lemma slice_to_minus_one {A} (md : list A) :
  slice_to md (-1) = removelast md.
Proof.
  unfold slice_to. simpl. rewrite removelast_firstn_len. f_equal. lia.
Qed.

(** The slice [clean_index_of_old_pubs] takes, start marker below line 0. *)
Lemma clean_md_inner md b e :
  list_index md START_MARK = Ok (S b) ->
  list_index md END_MARK = Ok e ->
  clean_md md = Ok (firstn b md ++ skipn (S e) md).
Proof.
  intros Hb He. unfold clean_md. rewrite Hb, He. simpl.
  replace (Z.of_nat (S b) - 1)%Z with (Z.of_nat b) by lia.
  replace (Z.of_nat e + 1)%Z with (Z.of_nat (S e)) by lia.
  by rewrite slice_to_nonneg, slice_from_nonneg.
Qed.

(** The same with the start marker on line 0: the bound is [-1]. *)
Lemma clean_md_first md e :
  list_index md START_MARK = Ok 0 ->
  list_index md END_MARK = Ok e ->
  clean_md md = Ok (removelast md ++ skipn (S e) md).
Proof.
  intros Hb He. unfold clean_md. rewrite Hb, He. simpl.
  replace (Z.of_nat e + 1)%Z with (Z.of_nat (S e)) by lia.
  change (0 - 1)%Z with (-1)%Z.
  by rewrite slice_to_minus_one, slice_from_nonneg.
Qed.

Lemma clean_absent index_md :
  ~ In START_MARK (readlines index_md) \/ ~ In END_MARK (readlines index_md) ->
  clean_index_of_old_pubs index_md = index_md.
Proof.
  intros H. unfold clean_index_of_old_pubs, clean_md.
  destruct (list_index (readlines index_md) START_MARK) as [b|e] eqn:Hb; [|done].
  destruct H as [H|H].
  - by rewrite (list_index_absent _ _ H) in Hb.
  - simpl. by rewrite (list_index_absent _ _ H).
Qed.

(** What is written is again a list of lines: reading it back gives the
    list that was written. *)
Lemma clean_md_ok md lines :
  lines_ok md -> clean_md md = Ok lines -> lines_ok lines.
Proof.
  intros Hmd H. unfold clean_md in H.
  apply bind_Ok in H as (b & Hb & H). apply bind_Ok in H as (e & He & [= <-]).
  apply PyFacts.lines_ok_full_app.
  - apply list_index_Ok in Hb as (a & r & -> & <- & _).
    destruct (length a) as [|n] eqn:En.
    + change (Z.of_nat 0 - 1)%Z with (-1)%Z. rewrite slice_to_minus_one.
      rewrite removelast_firstn_len. apply PyFacts.lines_ok_firstn; [done|].
      rewrite length_app. simpl. lia.
    + replace (Z.of_nat (S n) - 1)%Z with (Z.of_nat n) by lia.
      rewrite slice_to_nonneg. apply PyFacts.lines_ok_firstn; [done|].
      rewrite length_app. simpl. lia.
  - replace (Z.of_nat e + 1)%Z with (Z.of_nat (S e)) by lia.
    rewrite slice_from_nonneg. by apply PyFacts.lines_ok_skipn.
Qed.

Lemma readlines_clean index_md lines :
  clean_md (readlines index_md) = Ok lines ->
  clean_index_of_old_pubs index_md = writelines lines
  /\ readlines (clean_index_of_old_pubs index_md) = lines.
Proof.
  intros H. unfold clean_index_of_old_pubs. rewrite H. split; [done|].
  apply PyFacts.readlines_writelines.
  eapply clean_md_ok; [apply PyFacts.readlines_ok|done].
Qed.

End IndexFacts.

(** * [clean_index_of_old_pubs] *)

Lemma START_neq_END : START_MARK <> END_MARK.
Proof. discriminate. Qed.

(** Both markers found, the start marker below line 0 and above the end
    marker: the lines fall into five parts. *)
Lemma markers_split md b e :
  list_index md START_MARK = Ok (S b) ->
  list_index md END_MARK = Ok e ->
  S b < e ->
  exists pre p body post,
    md = pre ++ p :: START_MARK :: body ++ END_MARK :: post
    /\ length pre = b /\ length body = e - S b - 1
    /\ ~ In START_MARK pre /\ ~ In END_MARK body
    /\ clean_md md = Ok (pre ++ post).
Proof.
  intros Hb He Hlt.
  rewrite (IndexFacts.clean_md_inner _ _ _ Hb He).
  apply IndexFacts.list_index_Ok in Hb as (a & r & Hmd & Ha & HSa).
  apply IndexFacts.list_index_Ok in He as (a2 & post & Hmd2 & Ha2 & HEa2).
  destruct (exists_last (l := a)) as (pre & p & ->).
  { intros ->. discriminate. }
  rewrite Hmd2 in Hmd. apply app_eq_app in Hmd as [l [[-> Hr]|[Hl Hr]]].
  - destruct l as [|x l]; simpl in Hr.
    + injection Hr as Hr _. by destruct START_neq_END.
    + injection Hr as <- ->. rewrite !length_app in Ha.
      exists pre, p, l, post. subst md e. rewrite ?length_app. simpl in *.
      repeat split; try lia.
      * by rewrite <- !app_assoc.
      * intros H. apply HSa. apply in_or_app. by left.
      * intros H. apply HEa2. apply in_or_app. right. by right.
      * f_equal. f_equal.
        -- rewrite <- !app_assoc. apply take_app_length'. lia.
        -- rewrite (cons_middle END_MARK), (app_assoc _ [END_MARK]).
           apply drop_app_length'. rewrite !length_app. simpl. lia.
  - apply (f_equal (@length _)) in Hl. rewrite !length_app in Hl.
    rewrite !length_app in Ha. simpl in *. exfalso. lia.
Qed.

(** The converse: five parts, the markers first of their kind. *)
Lemma clean_block index_md pre p body post :
  readlines index_md = pre ++ p :: START_MARK :: body ++ END_MARK :: post ->
  ~ In START_MARK (pre ++ [p]) ->
  ~ In END_MARK (pre ++ [p]) ->
  ~ In END_MARK body ->
  clean_index_of_old_pubs index_md = writelines (pre ++ post)
  /\ readlines (clean_index_of_old_pubs index_md) = pre ++ post.
Proof.
  intros Hmd HS HE HEb. apply IndexFacts.readlines_clean.
  rewrite (IndexFacts.clean_md_inner _ (length pre)
             (length (pre ++ p :: START_MARK :: body))).
  - rewrite Hmd. f_equal. f_equal.
    + by rewrite take_app_length.
    + replace (pre ++ p :: START_MARK :: body ++ END_MARK :: post)
        with ((pre ++ p :: START_MARK :: body ++ [END_MARK]) ++ post)
        by (rewrite <- !app_assoc; simpl; by rewrite <- app_assoc).
      apply drop_app_length'. rewrite !length_app. simpl.
      rewrite length_app. simpl. lia.
  - rewrite Hmd.
    replace (pre ++ p :: START_MARK :: body ++ END_MARK :: post)
      with ((pre ++ [p]) ++ START_MARK :: body ++ END_MARK :: post)
      by (by rewrite <- app_assoc).
    rewrite IndexFacts.list_index_first by done.
    rewrite length_app. simpl. f_equal. lia.
  - rewrite Hmd.
    replace (pre ++ p :: START_MARK :: body ++ END_MARK :: post)
      with ((pre ++ p :: START_MARK :: body) ++ END_MARK :: post)
      by (by rewrite <- app_assoc).
    apply IndexFacts.list_index_first.
    intros H. apply in_app_or in H as [H|[H|[H|H]]].
    + apply HE. apply in_or_app. by left.
    + apply HE. apply in_or_app. right. by left.
    + by destruct START_neq_END.
    + done.
Qed.

(** C3.  The code at the failing inputs.  The docstring has the function
    erase what is between the marks.  In the first document a line of text
    stands just before the start marker: it is erased with the block,
    because the first slice is [md[:publication_begins-1]].  In the second
    the start marker is the first line: the bound is [-1] and nothing of
    the block is removed, although both markers are there, the start marker
    first. *)
Lemma clean_index_of_old_pubs_not_as_stated :
  (let index_md := "Bio" +:+ nl +:+ START_MARK +:+ "- x" +:+ nl +:+ END_MARK
                   +:+ "End" +:+ nl in
   readlines index_md
     = ["Bio" +:+ nl; START_MARK; "- x" +:+ nl; END_MARK; "End" +:+ nl]
   /\ clean_index_of_old_pubs index_md = "End" +:+ nl)
  /\
  (let index_md := START_MARK +:+ "- x" +:+ nl +:+ END_MARK +:+ "End" +:+ nl in
   list_index (readlines index_md) START_MARK = Ok 0
   /\ list_index (readlines index_md) END_MARK = Ok 2
   /\ clean_index_of_old_pubs index_md = index_md).
Proof. repeat split; reflexivity. Qed.

(** Text around the marker text makes a different line. *)
Lemma marker_with_text_around x y text :
  x +:+ text +:+ y +:+ nl = text +:+ nl -> x = "" /\ y = "".
Proof.
  intros H. apply (f_equal String.length) in H.
  rewrite !PyFacts.length_app in H.
  split; apply PyFacts.length_zero; lia.
Qed.

(** C9.  A marker is found only as a whole line: the marker text and then
    the line terminator.  A line with text before or after the marker text
    is not such a line.  Where no line of the document is exactly the
    marker line, for either marker, the document is left as it is; this is
    so when the marker text is the last line and has no terminator, and no
    terminated marker of that kind stands above it. *)
Theorem marker_is_a_terminated_line index_md :
  let md := readlines index_md in
  (forall b, list_index md START_MARK = Ok b ->
             nth_error md b = Some ("<!-- PUBLICATIONS START -->" +:+ nl))
  /\ (forall e, list_index md END_MARK = Ok e ->
                nth_error md e = Some ("<!-- PUBLICATIONS END -->" +:+ nl))
  /\ (forall x y,
        x +:+ "<!-- PUBLICATIONS START -->" +:+ y +:+ nl = START_MARK
        \/ x +:+ "<!-- PUBLICATIONS END -->" +:+ y +:+ nl = END_MARK ->
        x = "" /\ y = "")
  /\ ((forall l, In l md -> l <> "<!-- PUBLICATIONS START -->" +:+ nl)
      \/ (forall l, In l md -> l <> "<!-- PUBLICATIONS END -->" +:+ nl) ->
      clean_index_of_old_pubs index_md = index_md)
  /\ (endswith_nl index_md = true \/ index_md = "" ->
      (~ In END_MARK md ->
       clean_index_of_old_pubs (index_md +:+ "<!-- PUBLICATIONS END -->")
       = index_md +:+ "<!-- PUBLICATIONS END -->")
      /\ (~ In START_MARK md ->
          clean_index_of_old_pubs (index_md +:+ "<!-- PUBLICATIONS START -->")
          = index_md +:+ "<!-- PUBLICATIONS START -->")).
Proof.
  intros md. split; [|split; [|split; [|split]]].
  - intros b Hb. apply IndexFacts.list_index_Ok in Hb as (a & r & Hmd & <- & _).
    rewrite Hmd. rewrite nth_error_app2 by lia. by rewrite Nat.sub_diag.
  - intros e He. apply IndexFacts.list_index_Ok in He as (a & r & Hmd & <- & _).
    rewrite Hmd. rewrite nth_error_app2 by lia. by rewrite Nat.sub_diag.
  - intros x y [H|H]; by apply marker_with_text_around in H.
  - intros [H|H]; apply IndexFacts.clean_absent; [left|right];
      intros Hin; by apply (H _ Hin).
  - intros Hend. split.
    + intros HE. apply IndexFacts.clean_absent. right.
      destruct Hend as [Hend| ->]; [|absent_line].
      rewrite PyFacts.readlines_app by done. intros Hin.
      apply in_app_or in Hin as [Hin|Hin]; [done|]. revert Hin. absent_line.
    + intros HS. apply IndexFacts.clean_absent. left.
      destruct Hend as [Hend| ->]; [|absent_line].
      rewrite PyFacts.readlines_app by done. intros Hin.
      apply in_app_or in Hin as [Hin|Hin]; [done|]. revert Hin. absent_line.
Qed.

Lemma marker_is_a_terminated_line_witness :
  nth_error (readlines ("Bio" +:+ nl +:+ START_MARK)) 1
    = Some ("<!-- PUBLICATIONS START -->" +:+ nl)
  /\ clean_index_of_old_pubs
       ("Bio" +:+ nl +:+ START_MARK +:+ "<!-- PUBLICATIONS END --> " +:+ nl)
     = "Bio" +:+ nl +:+ START_MARK +:+ "<!-- PUBLICATIONS END --> " +:+ nl
  /\ clean_index_of_old_pubs
       (("Bio" +:+ nl +:+ START_MARK) +:+ "<!-- PUBLICATIONS END -->")
     = ("Bio" +:+ nl +:+ START_MARK) +:+ "<!-- PUBLICATIONS END -->".
Proof.
  split; [|split].
  - apply (proj1 (marker_is_a_terminated_line _)). reflexivity.
  - apply (proj1 (proj2 (proj2 (proj2 (marker_is_a_terminated_line _))))).
    right. intros l Hl. vm_compute in Hl.
    destruct Hl as [<-|[<-|[<-|[]]]]; discriminate.
  - apply (proj2 (proj2 (proj2 (proj2 (marker_is_a_terminated_line _))))).
    + left. reflexivity.
    + absent_line.
Defined.

(** C10, counterexample.  With the start marker on the first line and the
    end marker on the last, the end marker line is dropped: the block does
    not stay with both its markers. *)
Lemma clean_start_on_first_line_drops_end :
  let index_md := START_MARK +:+ "- x" +:+ nl +:+ END_MARK in
  readlines index_md = [START_MARK; "- x" +:+ nl; END_MARK]
  /\ clean_index_of_old_pubs index_md = START_MARK +:+ "- x" +:+ nl
  /\ ~ In END_MARK (readlines (clean_index_of_old_pubs index_md)).
Proof. repeat split. absent_line. Qed.

(** C10 (amended).  When the start marker is the first line of the document
    and the end marker comes later, [clean_index_of_old_pubs] writes all
    lines but the last, followed by the lines after the end marker.  If at
    least one line follows the end marker, the block stays, both markers
    included, and the lines after the end marker, the last one apart, are
    there twice.  If the end marker is the last line, that line alone is
    dropped. *)
Theorem clean_start_on_first_line index_md rest e :
  readlines index_md = START_MARK :: rest ->
  list_index (readlines index_md) END_MARK = Ok e ->
  let md := readlines index_md in
  let after := skipn (S e) md in
  clean_index_of_old_pubs index_md = writelines (removelast md ++ after)
  /\ readlines (clean_index_of_old_pubs index_md) = removelast md ++ after
  /\ (exists body, firstn (S e) md = START_MARK :: body ++ [END_MARK])
  /\ (S e < length md ->
      readlines (clean_index_of_old_pubs index_md)
      = firstn (S e) md ++ removelast after ++ after)
  /\ (S e = length md ->
      readlines (clean_index_of_old_pubs index_md) = removelast md
      /\ ~ In END_MARK (readlines (clean_index_of_old_pubs index_md))).
Proof.
  intros Hmd He md after.
  assert (list_index md START_MARK = Ok 0) as Hb.
  { unfold md. rewrite Hmd. reflexivity. }
  pose proof (IndexFacts.clean_md_first md e Hb He) as Hclean.
  apply IndexFacts.readlines_clean in Hclean as [Hw Hr].
  split; [done|]. split; [done|].
  apply IndexFacts.list_index_Ok in He as (a & r & Ha & Hlen & HE).
  fold md in Ha.
  assert (after = r) as Hafter.
  { unfold after. rewrite Ha.
    replace (a ++ END_MARK :: r) with ((a ++ [END_MARK]) ++ r)
      by (by rewrite <- app_assoc).
    apply drop_app_length'. rewrite length_app. simpl. lia. }
  assert (firstn (S e) md = a ++ [END_MARK]) as Hblock.
  { rewrite Ha.
    replace (a ++ END_MARK :: r) with ((a ++ [END_MARK]) ++ r)
      by (by rewrite <- app_assoc).
    apply take_app_length'. rewrite length_app. simpl. lia. }
  split; [|split].
  - rewrite Hblock. unfold md in Ha. rewrite Hmd in Ha.
    destruct a as [|x a]; simpl in Ha.
    + injection Ha as Ha _. by destruct START_neq_END.
    + injection Ha as <- _. by exists a.
  - intros Hlt. rewrite Hr, Hblock.
    change (drop (S e) md) with after. rewrite Hafter.
    replace (removelast md) with (removelast ((a ++ [END_MARK]) ++ r))
      by (rewrite Ha; by rewrite <- app_assoc).
    rewrite removelast_app; [by rewrite <- !app_assoc|].
    intros ->. rewrite Ha, length_app in Hlt. simpl in Hlt. lia.
  - intros Heq. assert (r = []) as ->.
    { rewrite Ha, length_app in Heq. simpl in Heq.
      destruct r; [done|simpl in Heq; lia]. }
    rewrite Hr. change (drop (S e) md) with after.
    rewrite Hafter, app_nil_r, Ha, removelast_last. done.
Qed.

Lemma clean_start_on_first_line_witness :
  let index_md := START_MARK +:+ "- x" +:+ nl +:+ END_MARK
                  +:+ "Bio" +:+ nl +:+ "End" +:+ nl in
  let md := readlines index_md in
  let after := skipn 3 md in
  clean_index_of_old_pubs index_md = writelines (removelast md ++ after)
  /\ readlines (clean_index_of_old_pubs index_md) = removelast md ++ after
  /\ (exists body, firstn 3 md = START_MARK :: body ++ [END_MARK])
  /\ (3 < length md ->
      readlines (clean_index_of_old_pubs index_md)
      = firstn 3 md ++ removelast after ++ after)
  /\ (3 = length md ->
      readlines (clean_index_of_old_pubs index_md) = removelast md
      /\ ~ In END_MARK (readlines (clean_index_of_old_pubs index_md))).
Proof.
  apply (clean_start_on_first_line _
           ["- x" +:+ nl; END_MARK; "Bio" +:+ nl; "End" +:+ nl] 2);
    reflexivity.
Defined.

(** C4, counterexamples.  A document with two blocks: the first run removes
    the first block, the second run the other one.  And a document whose
    first line is the start marker: every run adds lines. *)
Lemma clean_twice_differs :
  (let index_md := "Bio" +:+ nl +:+ nl +:+ START_MARK +:+ END_MARK
                   +:+ nl +:+ START_MARK +:+ END_MARK in
   clean_index_of_old_pubs index_md
     = "Bio" +:+ nl +:+ nl +:+ START_MARK +:+ END_MARK
   /\ clean_index_of_old_pubs (clean_index_of_old_pubs index_md)
      = "Bio" +:+ nl
   /\ clean_index_of_old_pubs (clean_index_of_old_pubs index_md)
      <> clean_index_of_old_pubs index_md)
  /\
  (let index_md := START_MARK +:+ END_MARK +:+ "Bio" +:+ nl +:+ "End" +:+ nl in
   clean_index_of_old_pubs index_md
     = START_MARK +:+ END_MARK +:+ "Bio" +:+ nl +:+ "Bio" +:+ nl
       +:+ "End" +:+ nl
   /\ clean_index_of_old_pubs (clean_index_of_old_pubs index_md)
      <> clean_index_of_old_pubs index_md).
Proof. repeat split; discriminate. Qed.

(** C4 (amended).  For a document holding at most one start marker line,
    where that line, if both markers are found, is not the first line and
    stands before the end marker, [clean_index_of_old_pubs] applied twice
    gives what it gives applied once. *)
Theorem clean_index_of_old_pubs_idempotent index_md :
  count_occ string_dec (readlines index_md) START_MARK <= 1 ->
  (forall b e,
      list_index (readlines index_md) START_MARK = Ok b ->
      list_index (readlines index_md) END_MARK = Ok e ->
      1 <= b < e) ->
  clean_index_of_old_pubs (clean_index_of_old_pubs index_md)
  = clean_index_of_old_pubs index_md.
Proof.
  intros Hcount Horder.
  destruct (list_index (readlines index_md) START_MARK) as [b|x] eqn:Hb.
  2: { apply IndexFacts.list_index_Raise in Hb.
       by rewrite !(IndexFacts.clean_absent index_md) by auto. }
  destruct (list_index (readlines index_md) END_MARK) as [e|x] eqn:He.
  2: { apply IndexFacts.list_index_Raise in He.
       by rewrite !(IndexFacts.clean_absent index_md) by auto. }
  destruct (Horder b e eq_refl eq_refl) as [Hb1 Hlt].
  destruct b as [|b]; [lia|].
  destruct (markers_split _ b e Hb He Hlt)
    as (pre & p & body & post & Hmd & _ & _ & HS & HE & Hclean).
  assert (~ In START_MARK post) as HSpost.
  { rewrite Hmd in Hcount. apply (count_occ_not_In string_dec).
    rewrite count_occ_app in Hcount. simpl in Hcount.
    rewrite count_occ_app in Hcount. simpl in Hcount.
    repeat match type of Hcount with
           | context [string_dec ?a ?b] => destruct (string_dec a b)
           end; try done; lia. }
  apply IndexFacts.readlines_clean in Hclean as [_ Hr].
  apply IndexFacts.clean_absent. left. rewrite Hr.
  intros Hin. apply in_app_or in Hin as [Hin|Hin]; done.
Qed.

Lemma clean_index_of_old_pubs_idempotent_witness :
  clean_index_of_old_pubs
    (clean_index_of_old_pubs
       ("Bio" +:+ nl +:+ nl +:+ START_MARK +:+ "- x" +:+ nl +:+ END_MARK
        +:+ "End" +:+ nl))
  = clean_index_of_old_pubs
      ("Bio" +:+ nl +:+ nl +:+ START_MARK +:+ "- x" +:+ nl +:+ END_MARK
       +:+ "End" +:+ nl).
Proof.
  apply clean_index_of_old_pubs_idempotent.
  - vm_compute. lia.
  - intros b e Hb He. vm_compute in Hb, He.
    injection Hb as <-. injection He as <-. lia.
Defined.

(** * The block [main] appends *)

Module AnnexFacts.

Lemma foldl_entries init publications :
  foldl (fun annex pub => annex +:+ publication_to_md pub) init publications
  = init +:+ entries_md publications.
Proof.
  revert init. induction publications as [|pub pubs IH]; intros init; simpl.
  - by rewrite PyFacts.app_nil_r.
  - by rewrite IH, PyFacts.app_assoc.
Qed.

Lemma annex_eq publications :
  annex publications
  = START_MARK +:+ DONT_TOUCH +:+ nl +:+ nl +:+ HEADING
    +:+ entries_md publications +:+ END_MARK.
Proof.
  unfold annex. rewrite foldl_entries. unfold HEADING.
  by rewrite !PyFacts.app_assoc.
Qed.

Lemma endswith_nl_app_true a b :
  endswith_nl b = true -> endswith_nl (a +:+ b) = true.
Proof.
  intros H. rewrite PyFacts.endswith_nl_app; [done|]. by intros ->.
Qed.

Lemma publication_to_md_end pub : endswith_nl (publication_to_md pub) = true.
Proof. unfold publication_to_md. by repeat apply endswith_nl_app_true. Qed.

(** Every entry ends its last line. *)
Lemma entries_md_end publications :
  entries_md publications = "" \/ endswith_nl (entries_md publications) = true.
Proof.
  induction publications as [|pub pubs IH]; [by left|right].
  change (entries_md (pub :: pubs))
    with (publication_to_md pub +:+ entries_md pubs).
  destruct IH as [-> | IH].
  - rewrite PyFacts.app_nil_r. apply publication_to_md_end.
  - by apply endswith_nl_app_true.
Qed.

Lemma readlines_app_or a b :
  a = "" \/ endswith_nl a = true ->
  readlines (a +:+ b) = readlines a ++ readlines b.
Proof. intros [-> | H]; [done|by apply PyFacts.readlines_app]. Qed.

Lemma readlines_annex publications :
  readlines (annex publications +:+ nl) = annex_lines publications ++ [nl].
Proof.
  rewrite annex_eq, !PyFacts.app_assoc. unfold annex_lines.
  rewrite !PyFacts.readlines_full by done.
  rewrite readlines_app_or by apply entries_md_end.
  rewrite PyFacts.readlines_full by done. simpl.
  by rewrite <- app_assoc.
Qed.

(** [old_index] once [main] has made sure it ends its last line. *)
Lemma new_index_eq old_index publications :
  exists old,
    new_index old_index publications = old +:+ annex publications +:+ nl
    /\ endswith_nl old = true
    /\ (endswith_nl old_index = true -> old = old_index)
    /\ (endswith_nl old_index = false -> old = old_index +:+ nl).
Proof.
  unfold new_index. destruct (endswith_nl old_index) eqn:E; simpl.
  - exists old_index. by repeat split.
  - exists (old_index +:+ nl). rewrite PyFacts.endswith_nl_nl.
    by repeat split.
Qed.

End AnnexFacts.

(** C7.  For a document that does not end in a line terminator and the
    publications A (2020; X, Y) and B (2019; Z), what [main] writes is the
    document, a line terminator, the block of the format section with the
    two entries, and one empty line.  This is so for the document as read
    back after the cleaning, hence for the update as a whole whenever the
    cleaning finds no marker pair to remove. *)
Theorem new_index_scenario index_md :
  endswith_nl index_md = false ->
  new_index index_md [pub_A; pub_B] = index_md +:+ nl +:+ block_A_B +:+ nl
  /\ (~ In START_MARK (readlines index_md)
      \/ ~ In END_MARK (readlines index_md) ->
      updateDocument index_md [pub_A; pub_B]
      = index_md +:+ nl +:+ block_A_B +:+ nl).
Proof.
  intros Hend.
  assert (new_index index_md [pub_A; pub_B]
          = index_md +:+ nl +:+ block_A_B +:+ nl) as Hnew.
  { unfold new_index. rewrite Hend. simpl.
    by rewrite PyFacts.app_assoc. }
  split; [done|]. intros Habsent. unfold updateDocument.
  by rewrite IndexFacts.clean_absent.
Qed.

Lemma new_index_scenario_witness :
  new_index ("---" +:+ nl +:+ "title: Ada" +:+ nl +:+ "---" +:+ nl +:+ "Bio")
            [pub_A; pub_B]
  = ("---" +:+ nl +:+ "title: Ada" +:+ nl +:+ "---" +:+ nl +:+ "Bio")
    +:+ nl +:+ block_A_B +:+ nl
  /\ updateDocument
       ("---" +:+ nl +:+ "title: Ada" +:+ nl +:+ "---" +:+ nl +:+ "Bio")
       [pub_A; pub_B]
     = ("---" +:+ nl +:+ "title: Ada" +:+ nl +:+ "---" +:+ nl +:+ "Bio")
       +:+ nl +:+ block_A_B +:+ nl.
Proof.
  split.
  - apply new_index_scenario. reflexivity.
  - apply new_index_scenario; [reflexivity|]. left. absent_line.
Defined.

(** * The last line of a document *)

Module LastLine.

Lemma lines_ok_snoc ls l :
  lines_ok (ls ++ [l]) ->
  Forall (fun l => full_line l = true) ls
  /\ (full_line l = true \/ open_line l = true).
Proof.
  intros H. split; [by apply PyFacts.lines_ok_app_l in H|].
  apply PyFacts.lines_ok_app_r in H.
  inversion H; subst; auto.
Qed.

Lemma open_line_terminated l :
  open_line l = true -> full_line (l +:+ nl) = true.
Proof.
  induction l as [|c l IH]; [done|]. simpl.
  destruct (Ascii.eqb c LF); [done|]. simpl.
  destruct l as [|c' l]; [done|]. apply IH.
Qed.

Lemma endswith_nl_writelines ls l :
  full_line l = true -> endswith_nl (writelines (ls ++ [l])) = true.
Proof.
  intros H. rewrite PyFacts.writelines_app. simpl.
  rewrite PyFacts.app_nil_r.
  apply AnnexFacts.endswith_nl_app_true. by apply PyFacts.full_line_endswith.
Qed.

(** A document whose last line is terminated ends in a terminator. *)
Lemma last_full_endswith s l :
  last (readlines s) = Some l -> full_line l = true -> endswith_nl s = true.
Proof.
  intros Hlast Hl. apply last_Some in Hlast as [ls Hls].
  rewrite <- (PyFacts.writelines_readlines s), Hls.
  by apply endswith_nl_writelines.
Qed.

(** Terminating an unterminated document terminates its last line and
    touches no other. *)
Lemma readlines_terminate s :
  endswith_nl s = false -> s <> "" ->
  exists ls l,
    readlines s = ls ++ [l] /\ readlines (s +:+ nl) = ls ++ [l +:+ nl].
Proof.
  intros Hend Hs.
  destruct (exists_last (l := readlines s)) as (ls & l & Hls).
  { intros E. by apply PyFacts.readlines_nil in E. }
  exists ls, l. split; [done|].
  pose proof (PyFacts.readlines_ok s) as Hok. rewrite Hls in Hok.
  apply lines_ok_snoc in Hok as [Hfull [Hl|Hl]].
  - rewrite <- (PyFacts.writelines_readlines s), Hls in Hend.
    by rewrite endswith_nl_writelines in Hend.
  - rewrite <- (PyFacts.writelines_readlines s) at 1. rewrite Hls.
    replace (writelines (ls ++ [l]) +:+ nl)
      with (writelines (ls ++ [l +:+ nl])).
    + apply PyFacts.readlines_writelines.
      apply PyFacts.lines_ok_full_app; [done|].
      apply ok_cons; [by apply open_line_terminated|constructor].
    + rewrite !PyFacts.writelines_app. simpl.
      by rewrite !PyFacts.app_nil_r, PyFacts.app_assoc.
Qed.

End LastLine.

(** * Updating a document *)

(** C1.  The code at the failing input: a document without block whose last
    line is text, updated with one publication.  The update appends the
    block right after that line; read again, the file is the text written;
    the cleaning then takes [md[:publication_begins-1]], which leaves out
    the line before the start marker, and keeps the empty line written
    after the end marker.  The line ["Bio"] has become an empty line. *)
Lemma update_then_clean_eats_last_line :
  let index_md := "---" +:+ nl +:+ "title: Ada" +:+ nl +:+ "---" +:+ nl
                  +:+ "Bio" +:+ nl in
  let updated := updateDocument index_md [pub_A] in
  clean_index_of_old_pubs index_md = index_md
  /\ updated = index_md +:+ annex [pub_A] +:+ nl
  /\ reopen updated = updated
  /\ clean_index_of_old_pubs (reopen updated)
     = "---" +:+ nl +:+ "title: Ada" +:+ nl +:+ "---" +:+ nl +:+ nl
  /\ clean_index_of_old_pubs (reopen updated) <> index_md.
Proof. repeat split. discriminate. Qed.

Lemma no_marker_count ls :
  no_marker ls ->
  count_occ string_dec ls START_MARK = 0 /\ count_occ string_dec ls END_MARK = 0.
Proof.
  intros H. split; apply count_occ_not_In; intros Hin;
    destruct (H _ Hin); done.
Qed.

(** The old content, its last line terminated, has no marker line if none
    of its lines is like one. *)
Lemma no_marker_terminated s old :
  (forall l, In l (readlines s) -> ~ marker_like l) ->
  (endswith_nl s = true -> old = s) ->
  (endswith_nl s = false -> old = s +:+ nl) ->
  no_marker (readlines old).
Proof.
  intros Hs Hsame Hterm. destruct (endswith_nl s) eqn:E.
  - rewrite (Hsame eq_refl). intros l Hl. specialize (Hs l Hl).
    unfold marker_like in Hs. tauto.
  - rewrite (Hterm eq_refl). destruct s as [|c s'] eqn:Es.
    { intros l [<-|[]]. split; discriminate. }
    rewrite <- Es in *.
    destruct (LastLine.readlines_terminate s E) as (ls & l0 & Hls & ->).
    { by rewrite Es. }
    intros l Hl. apply in_app_or in Hl as [Hl|[<-|[]]].
    + assert (In l (readlines s)) as Hin
        by (rewrite Hls; apply in_or_app; by left).
      specialize (Hs l Hin). unfold marker_like in Hs. tauto.
    + assert (In l0 (readlines s)) as Hin
        by (rewrite Hls; apply in_or_app; right; by left).
      specialize (Hs l0 Hin). unfold marker_like in Hs. tauto.
Qed.

(** * The profile link *)

Lemma social_dict_snoc social l :
  social_dict (social ++ [l]) = <[icon l := link l]> (social_dict social).
Proof. unfold social_dict. by rewrite foldl_snoc. Qed.

(** The dict holds, for an icon name, the link of the last entry with it. *)
Lemma social_dict_lookup social k :
  social_dict social !! k
  = link <$> last (filter (fun l => icon l = k) social).
Proof.
  induction social as [|l social IH] using rev_ind; [done|].
  rewrite social_dict_snoc, filter_app, lookup_insert.
  destruct (decide (icon l = k)) as [Hk|Hk].
  - rewrite filter_cons_True by done. by rewrite filter_nil, last_snoc.
  - rewrite filter_cons_False by done. by rewrite filter_nil, app_nil_r.
Qed.

Lemma get_scholar_link_eq
    (author_social : string -> result (list social_link)) index_md social :
  author_social index_md = Ok social ->
  get_scholar_link author_social index_md = Ok (scholar_link_of social).
Proof. intros H. unfold get_scholar_link. by rewrite H. Qed.

Lemma scholar_link_of_default social :
  social_dict social !! "graduation-cap" = Some default_link ->
  scholar_link_of social = None.
Proof.
  intros H. unfold scholar_link_of. rewrite H.
  by rewrite String.eqb_refl.
Qed.

(** C5.  [get_scholar_link] builds the mapping from icon name to link out
    of the [social] entries, a later entry replacing an earlier one with the
    same icon name.  It returns [None] exactly when ["graduation-cap"] is
    not a key of the mapping or is mapped to the default link; otherwise it
    returns the link the key is mapped to. *)
Theorem get_scholar_link_spec
    (author_social : string -> result (list social_link)) index_md social :
  author_social index_md = Ok social ->
  let social_links := social_dict social in
  (forall k, social_links !! k
             = link <$> last (filter (fun l => icon l = k) social))
  /\ (get_scholar_link author_social index_md = Ok None
      <-> social_links !! "graduation-cap" = None
          \/ social_links !! "graduation-cap" = Some default_link)
  /\ (forall url,
        social_links !! "graduation-cap" = Some url ->
        url <> default_link ->
        get_scholar_link author_social index_md = Ok (Some url)).
Proof.
  intros Hsocial social_links.
  split; [apply social_dict_lookup|].
  rewrite (get_scholar_link_eq _ _ _ Hsocial). unfold scholar_link_of.
  fold social_links.
  destruct (social_links !! "graduation-cap") as [l|] eqn:E.
  - destruct (String.eqb_spec l default_link) as [->|Hne]; split.
    + split; auto.
    + intros url [= <-] Hurl. done.
    + split; [discriminate|]. intros [H|[= H]]; [discriminate|done].
    + by intros url [= <-] _.
  - split; [split; auto|]. discriminate.
Qed.

Lemma get_scholar_link_spec_witness :
  let author_social := fun _ : string => Ok social_custom in
  let social_links := social_dict social_custom in
  (forall k, social_links !! k
             = link <$> last (filter (fun l => icon l = k) social_custom))
  /\ (get_scholar_link author_social "" = Ok None
      <-> social_links !! "graduation-cap" = None
          \/ social_links !! "graduation-cap" = Some default_link)
  /\ (forall url,
        social_links !! "graduation-cap" = Some url ->
        url <> default_link ->
        get_scholar_link author_social "" = Ok (Some url)).
Proof.
  apply (get_scholar_link_spec (fun _ => Ok social_custom) "" social_custom).
  reflexivity.
Defined.

(** * The rows of the page *)

Module SoupFacts.

Lemma _find_all_unlimited found generator results :
  _find_all found None generator results
  = results ++ List.filter found generator.
Proof.
  revert results. induction generator as [|i gen IH]; intros results; simpl.
  - by rewrite app_nil_r.
  - destruct (found i); [|done]. by rewrite IH, <- app_assoc.
Qed.

(** [limit=0] is no limit. *)
Lemma _find_all_zero found generator results :
  _find_all found (Some 0%Z) generator results
  = _find_all found None generator results.
Proof.
  revert results. induction generator as [|i gen IH]; intros results; simpl.
  - done.
  - destruct (found i); by rewrite IH.
Qed.

(** A positive limit stops the loop at that many results. *)
Lemma _find_all_limit found k generator results :
  length results < k ->
  _find_all found (Some (Z.of_nat k)) generator results
  = results ++ take (k - length results) (List.filter found generator).
Proof.
  revert results. induction generator as [|i gen IH]; intros results Hlt; simpl.
  - by rewrite take_nil, app_nil_r.
  - destruct (found i); [|by apply IH].
    rewrite length_app. simpl.
    destruct (Z.eqb_spec (Z.of_nat k) 0) as [?|_]; [lia|]. simpl.
    destruct (Z.geb_spec (Z.of_nat (length results + 1)) (Z.of_nat k)).
    + replace (k - length results) with 1 by lia. simpl. by rewrite take_0.
    + rewrite IH by (rewrite length_app; simpl; lia).
      rewrite length_app. simpl. rewrite <- app_assoc. simpl.
      replace (k - length results) with (S (k - (length results + 1))) by lia.
      done.
Qed.

Lemma find_all_limit tag name cls k :
  0 < k ->
  find_all tag name cls (Some (Z.of_nat k))
  = take k (find_all tag name cls None).
Proof.
  intros Hk. unfold find_all.
  rewrite _find_all_limit by (simpl; lia).
  rewrite _find_all_unlimited. simpl. by rewrite Nat.sub_0_r.
Qed.

Lemma mapM_cons {A B} (f : A -> result B) x l :
  mapM f (x :: l) = (y ← f x; k ← mapM f l; Ok (y :: k)).
Proof. reflexivity. Qed.

(** The comprehension over a prefix of the rows gives that prefix of the
    records. *)
Lemma mapM_take {A B} (f : A -> result B) l k n :
  mapM f l = Ok k -> mapM f (take n l) = Ok (take n k).
Proof.
  revert k n. induction l as [|x l IH]; intros k n.
  - intros [= <-]. by rewrite !take_nil.
  - rewrite mapM_cons. intros H.
    apply IndexFacts.bind_Ok in H as (y & Hy & H).
    apply IndexFacts.bind_Ok in H as (k' & Hk' & [= <-]).
    destruct n as [|n]; [done|].
    rewrite !firstn_cons, mapM_cons, Hy, (IH _ _ Hk'). done.
Qed.

Lemma mapM_length {A B} (f : A -> result B) l k :
  mapM f l = Ok k -> length k = length l.
Proof.
  revert k. induction l as [|x l IH]; intros k.
  - by intros [= <-].
  - rewrite mapM_cons. intros H.
    apply IndexFacts.bind_Ok in H as (y & Hy & H).
    apply IndexFacts.bind_Ok in H as (k' & Hk' & [= <-]).
    simpl. by rewrite (IH _ Hk').
Qed.

End SoupFacts.

(** C6, counterexample.  The page has two well-formed rows and the limit is
    0: both rows are returned, not none. *)
Lemma get_publications_limit_zero :
  let author_social := fun _ : string => Ok social_custom in
  let get_soup := fun _ : string => Ok page_A_B in
  get_publications author_social get_soup "" None = Ok [pub_A; pub_B]
  /\ get_publications author_social get_soup "" (Some 0%Z) = Ok [pub_A; pub_B].
Proof. split; reflexivity. Qed.

(** C6 (amended).  Let the page have N rows [tr.gsc_a_tr], every one of
    which [parse_row] parses.  For a limit k with 0 < k < N,
    [get_publications] returns exactly k publications: those of the first k
    rows of the page, in the order of the page. *)
Theorem get_publications_limit
    (author_social : string -> result (list social_link))
    (get_soup : string -> result PageElement) index_md l soup k publications :
  get_scholar_link author_social index_md = Ok (Some l) ->
  get_soup (l +:+ "&view_op=list_works&sortby=pubdate") = Ok soup ->
  let rows := List.filter (search "tr" (Some "gsc_a_tr")) (descendants soup) in
  mapM parse_row rows = Ok publications ->
  0 < k < length rows ->
  get_publications author_social get_soup index_md (Some (Z.of_nat k))
  = Ok (take k publications)
  /\ length (take k publications) = k
  /\ mapM parse_row (take k rows) = Ok (take k publications).
Proof.
  intros Hlink Hsoup rows Hrows [Hk HN].
  pose proof (SoupFacts.mapM_take _ _ _ k Hrows) as Htake.
  split; [|split; [|done]].
  - unfold get_publications. rewrite Hlink. simpl. rewrite Hsoup. simpl.
    unfold publications_of.
    rewrite SoupFacts.find_all_limit by done.
    unfold find_all. rewrite SoupFacts._find_all_unlimited. simpl.
    by fold rows.
  - apply length_take_le. rewrite (SoupFacts.mapM_length _ _ _ Hrows). lia.
Qed.

Lemma get_publications_limit_witness :
  let author_social := fun _ : string => Ok social_custom in
  let get_soup := fun _ : string => Ok page_A_B in
  get_publications author_social get_soup "" (Some (Z.of_nat 1))
  = Ok (take 1 [pub_A; pub_B])
  /\ length (take 1 [pub_A; pub_B]) = 1
  /\ mapM parse_row
       (take 1 (List.filter (search "tr" (Some "gsc_a_tr"))
                  (descendants page_A_B)))
     = Ok (take 1 [pub_A; pub_B]).
Proof.
  apply (get_publications_limit (fun _ => Ok social_custom)
           (fun _ => Ok page_A_B) ""
           "https://scholar.google.com/citations?user=ada" page_A_B
           1 [pub_A; pub_B]).
  - reflexivity.
  - reflexivity.
  - reflexivity.
  - simpl. lia.
Defined.

(** * One iteration of [main] *)

(** With a profile link and rows that parse, the iteration is the update of
    the document with the first five publications. *)
Lemma main_author_update
    (author_social : string -> result (list social_link))
    (get_soup : string -> result PageElement) index_md l publications :
  get_scholar_link author_social index_md = Ok (Some l) ->
  get_publications author_social get_soup
    (clean_index_of_old_pubs index_md) (Some 5%Z) = Ok publications ->
  main_author author_social get_soup index_md
  = (updateDocument index_md publications, Ok tt).
Proof.
  intros Hlink Hpubs. unfold main_author. by rewrite Hlink, Hpubs.
Qed.

(** C2, counterexample.  The author has the default link and the document
    holds a block from an earlier run.  The iteration returns without
    appending, but the block is gone from the document. *)
Lemma main_author_default_link_strips :
  let author_social := fun _ : string => Ok social_default in
  let get_soup := fun _ : string => Ok page_A_B in
  let index_md := "---" +:+ nl +:+ "title: Ada" +:+ nl +:+ "---" +:+ nl
                  +:+ "Bio" +:+ nl +:+ nl +:+ annex [pub_A] +:+ nl in
  get_scholar_link author_social index_md = Ok None
  /\ main_author author_social get_soup index_md
     = ("---" +:+ nl +:+ "title: Ada" +:+ nl +:+ "---" +:+ nl
        +:+ "Bio" +:+ nl +:+ nl, Ok tt)
  /\ fst (main_author author_social get_soup index_md) <> index_md.
Proof. repeat split. discriminate. Qed.

(** C2 (amended).  For an author whose profile link is the default link,
    [get_scholar_link] returns [None] and the iteration appends nothing: it
    leaves the document as [clean_index_of_old_pubs] leaves it, that is
    unchanged when the document has no marker pair. *)
Theorem main_author_default_link
    (author_social : string -> result (list social_link))
    (get_soup : string -> result PageElement) index_md social :
  author_social index_md = Ok social ->
  social_dict social !! "graduation-cap" = Some default_link ->
  get_scholar_link author_social index_md = Ok None
  /\ main_author author_social get_soup index_md
     = (clean_index_of_old_pubs index_md, Ok tt)
  /\ (~ In START_MARK (readlines index_md)
      \/ ~ In END_MARK (readlines index_md) ->
      main_author author_social get_soup index_md = (index_md, Ok tt)).
Proof.
  intros Hsocial Hdefault.
  assert (get_scholar_link author_social index_md = Ok None) as Hlink.
  { rewrite (get_scholar_link_eq _ _ _ Hsocial).
    by rewrite scholar_link_of_default. }
  assert (main_author author_social get_soup index_md
          = (clean_index_of_old_pubs index_md, Ok tt)) as Hmain.
  { unfold main_author. by rewrite Hlink. }
  repeat split; try done.
  intros Habsent. by rewrite Hmain, IndexFacts.clean_absent.
Qed.

Lemma main_author_default_link_witness :
  let author_social := fun _ : string => Ok social_default in
  let get_soup := fun _ : string => Ok page_A_B in
  let index_md := "---" +:+ nl +:+ "title: Ada" +:+ nl +:+ "---" +:+ nl
                  +:+ "Bio" +:+ nl in
  get_scholar_link author_social index_md = Ok None
  /\ main_author author_social get_soup index_md
     = (clean_index_of_old_pubs index_md, Ok tt)
  /\ (~ In START_MARK (readlines index_md)
      \/ ~ In END_MARK (readlines index_md) ->
      main_author author_social get_soup index_md = (index_md, Ok tt)).
Proof.
  apply (main_author_default_link (fun _ => Ok social_default)
           (fun _ => Ok page_A_B)
           ("---" +:+ nl +:+ "title: Ada" +:+ nl +:+ "---" +:+ nl
            +:+ "Bio" +:+ nl)
           social_default).
  - reflexivity.
  - reflexivity.
Defined.

(** * Further properties of the cleaning *)

Module CleanMore.

Lemma clean_md_slices md b e :
  list_index md START_MARK = Ok b ->
  list_index md END_MARK = Ok e ->
  clean_md md
  = Ok (slice_to md (Z.of_nat b - 1) ++ slice_from md (Z.of_nat e + 1)).
Proof. intros Hb He. unfold clean_md. by rewrite Hb, He. Qed.

(** End marker above the start marker, at least one line between them. *)
Lemma clean_md_reversed A M p R :
  ~ In START_MARK A -> ~ In START_MARK M -> p <> START_MARK ->
  ~ In END_MARK A ->
  clean_md (A ++ END_MARK :: M ++ p :: START_MARK :: R)
  = Ok (A ++ END_MARK :: M ++ M ++ p :: START_MARK :: R).
Proof.
  intros HSA HSM Hp HEA.
  set (md := A ++ END_MARK :: M ++ p :: START_MARK :: R).
  assert (md = (A ++ END_MARK :: M ++ [p]) ++ START_MARK :: R) as Hmd1.
  { unfold md. rewrite <- !app_assoc. simpl. by rewrite <- app_assoc. }
  assert (list_index md START_MARK = Ok (S (length (A ++ END_MARK :: M))))
    as Hb.
  { rewrite Hmd1, IndexFacts.list_index_first.
    - f_equal. rewrite !length_app. simpl. rewrite length_app. simpl. lia.
    - intros H. apply in_app_or in H as [H|[H|H]]; [done| |].
      + by destruct START_neq_END.
      + apply in_app_or in H as [H|[H|[]]]; done. }
  assert (list_index md END_MARK = Ok (length A)) as He
    by (by apply IndexFacts.list_index_first).
  rewrite (IndexFacts.clean_md_inner _ _ _ Hb He). f_equal.
  replace md with ((A ++ END_MARK :: M) ++ p :: START_MARK :: R) at 1
    by (unfold md; by rewrite <- app_assoc).
  rewrite take_app_length.
  replace md with ((A ++ [END_MARK]) ++ M ++ p :: START_MARK :: R)
    by (unfold md; by rewrite <- app_assoc).
  rewrite drop_app_length' by (rewrite length_app; simpl; lia).
  by rewrite <- app_assoc.
Qed.

(** End marker on the line just above the start marker. *)
Lemma clean_md_adjacent A R :
  ~ In START_MARK A -> ~ In END_MARK A ->
  clean_md (A ++ END_MARK :: START_MARK :: R) = Ok (A ++ START_MARK :: R).
Proof.
  intros HSA HEA.
  set (md := A ++ END_MARK :: START_MARK :: R).
  assert (list_index md START_MARK = Ok (S (length A))) as Hb.
  { replace md with ((A ++ [END_MARK]) ++ START_MARK :: R)
      by (unfold md; by rewrite <- app_assoc).
    rewrite IndexFacts.list_index_first.
    - f_equal. rewrite length_app. simpl. lia.
    - intros H. apply in_app_or in H as [H|[H|[]]]; [done|].
      by destruct START_neq_END. }
  assert (list_index md END_MARK = Ok (length A)) as He
    by (by apply IndexFacts.list_index_first).
  rewrite (IndexFacts.clean_md_inner _ _ _ Hb He). f_equal.
  unfold md. rewrite take_app_length.
  replace (A ++ END_MARK :: START_MARK :: R)
    with ((A ++ [END_MARK]) ++ START_MARK :: R) by (by rewrite <- app_assoc).
  by rewrite drop_app_length' by (rewrite length_app; simpl; lia).
Qed.

End CleanMore.

(** X1.  Whenever both markers are found, the file [clean_index_of_old_pubs]
    writes reads back as exactly the two slices it joined: the rewrite
    neither merges nor splits a line, also when the document ends without a
    terminator or the slices overlap. *)
Theorem clean_rewrite_reads_back index_md b e :
  list_index (readlines index_md) START_MARK = Ok b ->
  list_index (readlines index_md) END_MARK = Ok e ->
  let md := readlines index_md in
  let clean := slice_to md (Z.of_nat b - 1) ++ slice_from md (Z.of_nat e + 1) in
  clean_index_of_old_pubs index_md = writelines clean
  /\ readlines (clean_index_of_old_pubs index_md) = clean.
Proof.
  intros Hb He md clean. apply IndexFacts.readlines_clean.
  by apply CleanMore.clean_md_slices.
Qed.

Lemma clean_rewrite_reads_back_witness :
  let index_md := "Bio" +:+ nl +:+ nl +:+ START_MARK +:+ "- x" +:+ nl
                  +:+ END_MARK +:+ "End" in
  let md := readlines index_md in
  let clean := slice_to md (Z.of_nat 2 - 1) ++ slice_from md (Z.of_nat 4 + 1) in
  clean_index_of_old_pubs index_md = writelines clean
  /\ readlines (clean_index_of_old_pubs index_md) = clean.
Proof.
  apply (clean_rewrite_reads_back
           ("Bio" +:+ nl +:+ nl +:+ START_MARK +:+ "- x" +:+ nl
            +:+ END_MARK +:+ "End") 2 4); reflexivity.
Defined.

(** X2.  When the first end marker stands above the first start marker,
    nothing is taken out of the block.  With lines [M] and [p] between the
    two markers, every line of the document is written back and the lines
    [M] are written twice; with the end marker directly above the start
    marker, the end marker line alone is removed. *)
Theorem clean_end_before_start index_md A R :
  ~ In START_MARK A -> ~ In END_MARK A ->
  (forall M p,
      readlines index_md = A ++ END_MARK :: M ++ p :: START_MARK :: R ->
      ~ In START_MARK M -> p <> START_MARK ->
      readlines (clean_index_of_old_pubs index_md)
      = A ++ END_MARK :: M ++ M ++ p :: START_MARK :: R)
  /\ (readlines index_md = A ++ END_MARK :: START_MARK :: R ->
      readlines (clean_index_of_old_pubs index_md) = A ++ START_MARK :: R).
Proof.
  intros HSA HEA. split.
  - intros M p Hmd HSM Hp. apply IndexFacts.readlines_clean.
    rewrite Hmd. by apply CleanMore.clean_md_reversed.
  - intros Hmd. apply IndexFacts.readlines_clean.
    rewrite Hmd. by apply CleanMore.clean_md_adjacent.
Qed.

Lemma clean_end_before_start_witness :
  readlines
    (clean_index_of_old_pubs
       ("Bio" +:+ nl +:+ END_MARK +:+ "a" +:+ nl +:+ "b" +:+ nl
        +:+ START_MARK +:+ "End" +:+ nl))
  = ["Bio" +:+ nl] ++ END_MARK :: ["a" +:+ nl] ++ ["a" +:+ nl]
    ++ ("b" +:+ nl) :: START_MARK :: ["End" +:+ nl].
Proof.
  apply (proj1 (clean_end_before_start
                  ("Bio" +:+ nl +:+ END_MARK +:+ "a" +:+ nl +:+ "b" +:+ nl
                   +:+ START_MARK +:+ "End" +:+ nl)
                  ["Bio" +:+ nl] ["End" +:+ nl]
                  ltac:(absent_line) ltac:(absent_line))
           ["a" +:+ nl] ("b" +:+ nl)).
  - reflexivity.
  - absent_line.
  - discriminate.
Defined.

(** * Further properties of the block *)

Module BlockMore.

Lemma no_lf_app a b : no_lf (a +:+ b) = no_lf a && no_lf b.
Proof.
  induction a as [|c a IH]; [done|].
  rewrite PyFacts.app_cons. simpl. by rewrite IH, andb_assoc.
Qed.

(** Text without terminator, then a terminator: a terminated line. *)
Lemma no_lf_full_line s : no_lf s = true -> full_line (s +:+ nl) = true.
Proof.
  induction s as [|c s IH]; [done|].
  rewrite PyFacts.app_cons. simpl.
  destruct (Ascii.eqb c LF); [done|]. apply IH.
Qed.

Lemma readlines_one_full l : full_line l = true -> readlines l = [l].
Proof.
  intros H. rewrite <- (PyFacts.app_nil_r l) at 1.
  by rewrite PyFacts.readlines_full.
Qed.

Lemma entry_first_full p :
  no_lf (title p) = true -> no_lf (year p) = true ->
  full_line ("- **" +:+ title p +:+ "** (" +:+ year p +:+ ")" +:+ nl) = true.
Proof.
  intros Ht Hy.
  replace ("- **" +:+ title p +:+ "** (" +:+ year p +:+ ")" +:+ nl)
    with (("- **" +:+ title p +:+ "** (" +:+ year p +:+ ")") +:+ nl)
    by (by rewrite !PyFacts.app_assoc).
  apply no_lf_full_line. rewrite !no_lf_app, Ht, Hy. done.
Qed.

Lemma entry_second_full p :
  no_lf (authors p) = true -> full_line ("  - " +:+ authors p +:+ nl) = true.
Proof.
  intros Ha.
  replace ("  - " +:+ authors p +:+ nl) with (("  - " +:+ authors p) +:+ nl)
    by (by rewrite !PyFacts.app_assoc).
  apply no_lf_full_line. rewrite no_lf_app, Ha. done.
Qed.

Lemma readlines_publication_to_md p :
  one_line_fields p -> readlines (publication_to_md p) = entry_lines p.
Proof.
  intros (Ht & Hy & Ha). unfold publication_to_md, entry_lines.
  rewrite PyFacts.readlines_full by (by apply entry_first_full).
  by rewrite readlines_one_full by (by apply entry_second_full).
Qed.

Lemma readlines_entries_md publications :
  Forall one_line_fields publications ->
  readlines (entries_md publications) = flat_map entry_lines publications.
Proof.
  induction 1 as [|p ps Hp Hps IH]; [done|].
  change (entries_md (p :: ps)) with (publication_to_md p +:+ entries_md ps).
  rewrite PyFacts.readlines_app by apply AnnexFacts.publication_to_md_end.
  rewrite readlines_publication_to_md by done. by rewrite IH.
Qed.

Lemma readlines_annex_alone publications :
  readlines (annex publications) = annex_lines publications.
Proof.
  rewrite AnnexFacts.annex_eq. unfold annex_lines.
  rewrite !PyFacts.readlines_full by done.
  rewrite AnnexFacts.readlines_app_or by apply AnnexFacts.entries_md_end.
  by rewrite (readlines_one_full END_MARK).
Qed.

(** The lines of an entry begin with a hyphen or a blank: no marker. *)
Lemma entry_lines_no_marker p l :
  In l (entry_lines p) -> ~ marker_like l.
Proof.
  intros [<-|[<-|[]]] [H|[H|[H|H]]]; vm_compute in H; discriminate H.
Qed.

Lemma flat_entry_lines_no_marker publications l :
  In l (flat_map entry_lines publications) -> ~ marker_like l.
Proof.
  intros H. apply in_flat_map in H as (p & _ & Hl).
  by eapply entry_lines_no_marker.
Qed.

Lemma length_flat_entry_lines publications :
  length (flat_map entry_lines publications) = 2 * length publications.
Proof.
  induction publications as [|p ps IH]; [done|]. simpl in *. lia.
Qed.

Lemma terminated_end old_index : endswith_nl (terminated old_index) = true.
Proof.
  unfold terminated. destruct (endswith_nl old_index) eqn:E; [done|].
  apply PyFacts.endswith_nl_nl.
Qed.

Lemma new_index_terminated old_index publications :
  new_index old_index publications
  = terminated old_index +:+ annex publications +:+ nl.
Proof.
  unfold new_index, terminated. by destruct (endswith_nl old_index).
Qed.

Lemma readlines_new_index_terminated old_index publications :
  readlines (new_index old_index publications)
  = readlines (terminated old_index) ++ annex_lines publications ++ [nl].
Proof.
  rewrite new_index_terminated.
  rewrite PyFacts.readlines_app by apply terminated_end.
  by rewrite AnnexFacts.readlines_annex.
Qed.

Lemma terminated_nonempty old_index : readlines (terminated old_index) <> [].
Proof.
  intros H. apply PyFacts.readlines_nil in H.
  pose proof (terminated_end old_index) as E. by rewrite H in E.
Qed.

End BlockMore.

(** X3.  For a publication whose title, year and authors hold no line
    terminator, [publication_to_md] renders exactly two lines: the title in
    bold with the year in brackets, and the authors as an indented item. *)
Theorem publication_to_md_two_lines p :
  one_line_fields p ->
  readlines (publication_to_md p)
  = [ "- **" +:+ title p +:+ "** (" +:+ year p +:+ ")" +:+ nl;
      "  - " +:+ authors p +:+ nl ].
Proof. apply BlockMore.readlines_publication_to_md. Qed.

Lemma publication_to_md_two_lines_witness :
  readlines (publication_to_md pub_A)
  = [ "- **" +:+ title pub_A +:+ "** (" +:+ year pub_A +:+ ")" +:+ nl;
      "  - " +:+ authors pub_A +:+ nl ].
Proof. apply publication_to_md_two_lines. by repeat split. Defined.

(** X4.  Whatever the publications, the block [main] builds begins with the
    start marker line and ends with the end marker line, the fixed comment
    and heading lines in between coming first. *)
Theorem annex_begins_and_ends publications :
  exists entries,
    readlines (annex publications)
    = START_MARK :: DONT_TOUCH :: nl :: nl :: HEADING :: entries ++ [END_MARK]
    /\ head (readlines (annex publications)) = Some START_MARK
    /\ last (readlines (annex publications)) = Some END_MARK.
Proof.
  exists (readlines (entries_md publications)).
  rewrite BlockMore.readlines_annex_alone. unfold annex_lines.
  repeat split.
  rewrite !last_cons, last_snoc. done.
Qed.

(** X5.  For publications without line terminators in their texts the block
    has two lines per publication, in the order of the list, between the
    five opening lines and the end marker: [6 + 2 n] lines in all. *)
Theorem annex_two_lines_each publications :
  Forall one_line_fields publications ->
  readlines (annex publications)
  = START_MARK :: DONT_TOUCH :: nl :: nl :: HEADING
      :: flat_map entry_lines publications ++ [END_MARK]
  /\ length (readlines (annex publications)) = 6 + 2 * length publications.
Proof.
  intros H. rewrite BlockMore.readlines_annex_alone. unfold annex_lines.
  rewrite BlockMore.readlines_entries_md by done. split; [done|].
  simpl. rewrite length_app, BlockMore.length_flat_entry_lines. simpl. lia.
Qed.

Lemma annex_two_lines_each_witness :
  readlines (annex [pub_A; pub_B])
  = START_MARK :: DONT_TOUCH :: nl :: nl :: HEADING
      :: flat_map entry_lines [pub_A; pub_B] ++ [END_MARK]
  /\ length (readlines (annex [pub_A; pub_B])) = 6 + 2 * length [pub_A; pub_B].
Proof.
  apply annex_two_lines_each. repeat constructor.
Defined.

(** X6.  Publications without line terminators in their texts render no
    marker line, nor a line that would be one once terminated: the only
    marker lines of their block are its first and its last line. *)
Theorem one_line_fields_no_marker publications :
  Forall one_line_fields publications ->
  (forall l, In l (readlines (entries_md publications)) -> ~ marker_like l)
  /\ no_marker (readlines (entries_md publications))
  /\ count_occ string_dec (readlines (annex publications)) START_MARK = 1
  /\ count_occ string_dec (readlines (annex publications)) END_MARK = 1.
Proof.
  intros H.
  assert (forall l, In l (readlines (entries_md publications)) ->
                    ~ marker_like l) as Hfree.
  { rewrite BlockMore.readlines_entries_md by done.
    apply BlockMore.flat_entry_lines_no_marker. }
  assert (no_marker (readlines (entries_md publications))) as Hno.
  { intros l Hl. specialize (Hfree l Hl). unfold marker_like in Hfree. tauto. }
  split; [done|]. split; [done|].
  rewrite BlockMore.readlines_annex_alone. unfold annex_lines.
  destruct (no_marker_count _ Hno) as [HS HE]. simpl.
  rewrite !count_occ_app, HS, HE. simpl.
  repeat match goal with
         | |- context [string_dec ?a ?b] => destruct (string_dec a b)
         end; try done.
Qed.

Lemma one_line_fields_no_marker_witness :
  (forall l, In l (readlines (entries_md [pub_A; pub_B])) -> ~ marker_like l)
  /\ no_marker (readlines (entries_md [pub_A; pub_B]))
  /\ count_occ string_dec (readlines (annex [pub_A; pub_B])) START_MARK = 1
  /\ count_occ string_dec (readlines (annex [pub_A; pub_B])) END_MARK = 1.
Proof.
  apply one_line_fields_no_marker. repeat constructor.
Defined.

(** X7.  What [main] writes keeps the old content as its beginning, its last
    line terminated if it was not; then come the lines of the block and one
    empty line.  At least one line stands before the block (a lone
    terminator when the old content is empty), and the file ends with a
    terminator. *)
Theorem new_index_keeps_old_content old_index publications :
  new_index old_index publications
  = terminated old_index +:+ annex publications +:+ nl
  /\ (exists rest, new_index old_index publications = old_index +:+ rest)
  /\ readlines (new_index old_index publications)
     = readlines (terminated old_index) ++ annex_lines publications ++ [nl]
  /\ 1 <= length (readlines (terminated old_index))
  /\ endswith_nl (new_index old_index publications) = true.
Proof.
  repeat split.
  - apply BlockMore.new_index_terminated.
  - rewrite BlockMore.new_index_terminated. unfold terminated.
    destruct (endswith_nl old_index); [by eexists|].
    eexists. by rewrite PyFacts.app_assoc.
  - apply BlockMore.readlines_new_index_terminated.
  - pose proof (BlockMore.terminated_nonempty old_index).
    destruct (readlines (terminated old_index)); [done|simpl; lia].
  - rewrite BlockMore.new_index_terminated.
    by repeat apply AnnexFacts.endswith_nl_app_true.
Qed.

(** * A file written and opened again *)

Module RereadFacts.

Lemma no_cr_app a b : no_cr (a +:+ b) = no_cr a && no_cr b.
Proof.
  induction a as [|c a IH]; [done|].
  rewrite PyFacts.app_cons. simpl. by rewrite IH, andb_assoc.
Qed.

(** Text without carriage return is delivered as it is, and what follows it
    is translated on its own. *)
Lemma translate_no_cr a b :
  no_cr a = true ->
  universal_newlines false (a +:+ b) = a +:+ universal_newlines false b.
Proof.
  induction a as [|c a IH]; [done|].
  rewrite !PyFacts.app_cons. simpl.
  destruct (Ascii.eqb c CR); [done|]. simpl. intros Ha.
  destruct (Ascii.eqb c LF) eqn:E; [apply PyFacts.LF_eqb in E as ->|];
    by rewrite IH.
Qed.

Lemma reopen_no_cr s : no_cr s = true -> reopen s = s.
Proof.
  intros H. unfold reopen. rewrite <- (PyFacts.app_nil_r s) at 1.
  rewrite translate_no_cr by done. simpl. apply PyFacts.app_nil_r.
Qed.

(** After a line terminator the translation starts afresh. *)
Lemma translate_app after_cr a b :
  endswith_nl a = true ->
  universal_newlines after_cr (a +:+ b)
  = universal_newlines after_cr a +:+ universal_newlines false b.
Proof.
  revert after_cr. induction a as [|c a IH]; intros after_cr; [done|].
  rewrite PyFacts.app_cons. destruct a as [|c' a].
  - simpl. intros E. apply PyFacts.LF_eqb in E as ->. simpl.
    by destruct after_cr.
  - intros E. change (endswith_nl (String c' a) = true) in E.
    cbn [universal_newlines].
    destruct (Ascii.eqb c CR); [by rewrite IH|].
    destruct (Ascii.eqb c LF); [destruct after_cr|]; by rewrite IH.
Qed.

(** Text that ends a line still does so when it is read again. *)
Lemma translate_end after_cr s :
  endswith_nl s = true ->
  (after_cr = true /\ universal_newlines after_cr s = "")
  \/ endswith_nl (universal_newlines after_cr s) = true.
Proof.
  assert (forall x t, endswith_nl t = true -> endswith_nl (String x t) = true)
    as Hcons.
  { intros x t Ht. simpl. by destruct t. }
  revert after_cr. induction s as [|c s IH]; intros after_cr; [done|].
  destruct s as [|c' s].
  - simpl. intros E. apply PyFacts.LF_eqb in E as ->. simpl.
    destruct after_cr; [by left|by right].
  - intros E. change (endswith_nl (String c' s) = true) in E.
    remember (String c' s) as t eqn:Et. clear Et. right. simpl.
    destruct (Ascii.eqb c CR).
    { destruct (IH true E) as [[_ Hx]|Ht]; [by rewrite Hx|by apply Hcons]. }
    destruct (Ascii.eqb c LF); [destruct after_cr|];
      (destruct (IH false E) as [[? _]|Ht]; [done|]);
      try done; by apply Hcons.
Qed.

Lemma reopen_end s :
  s = "" \/ endswith_nl s = true ->
  reopen s = "" \/ endswith_nl (reopen s) = true.
Proof.
  intros [->|H]; [by left|]. right.
  by destruct (translate_end false s H) as [[? _]|?].
Qed.

Lemma no_cr_writelines ls : no_cr (writelines ls) = forallb no_cr ls.
Proof.
  induction ls as [|l ls IH]; [done|]. simpl. by rewrite no_cr_app, IH.
Qed.

Lemma no_cr_readlines s : no_cr s = true -> forallb no_cr (readlines s) = true.
Proof. intros H. by rewrite <- no_cr_writelines, PyFacts.writelines_readlines. Qed.

Lemma no_cr_terminated s : no_cr s = true -> no_cr (terminated s) = true.
Proof.
  intros H. unfold terminated. destruct (endswith_nl s); [done|].
  by rewrite no_cr_app, H.
Qed.

Lemma forallb_removelast {A} (f : A -> bool) ls :
  forallb f ls = true -> forallb f (removelast ls) = true.
Proof.
  induction ls as [|a ls IH]; [done|]. destruct ls as [|b ls]; [done|].
  intros H. apply andb_prop in H as [Ha H].
  change (f a && forallb f (removelast (b :: ls)) = true).
  by rewrite Ha, IH.
Qed.

(** The text delivered when the file [main] has written is opened again,
    for old content without carriage returns: only the text of the
    publications is translated. *)
Lemma reopen_new_index old_index publications :
  no_cr old_index = true ->
  reopen (new_index old_index publications)
  = terminated old_index +:+ START_MARK +:+ DONT_TOUCH +:+ nl +:+ nl
    +:+ HEADING +:+ reopen (entries_md publications) +:+ END_MARK +:+ nl.
Proof.
  intros Hold. rewrite BlockMore.new_index_terminated, AnnexFacts.annex_eq.
  rewrite !PyFacts.app_assoc. unfold reopen.
  rewrite (translate_no_cr (terminated old_index))
    by (by apply no_cr_terminated).
  rewrite (translate_no_cr START_MARK) by done.
  rewrite (translate_no_cr DONT_TOUCH) by done.
  rewrite (translate_no_cr nl) by done.
  rewrite (translate_no_cr nl) by done.
  rewrite (translate_no_cr HEADING) by done.
  do 6 f_equal.
  destruct (AnnexFacts.entries_md_end publications) as [->|Hend]; [done|].
  by rewrite translate_app.
Qed.

Lemma readlines_reopen_new_index old_index publications :
  no_cr old_index = true ->
  readlines (reopen (new_index old_index publications))
  = readlines (terminated old_index)
    ++ START_MARK :: DONT_TOUCH :: nl :: nl :: HEADING
       :: readlines (reopen (entries_md publications)) ++ [END_MARK; nl].
Proof.
  intros Hold. rewrite reopen_new_index by done.
  rewrite PyFacts.readlines_app by apply BlockMore.terminated_end.
  rewrite !PyFacts.readlines_full by done.
  rewrite AnnexFacts.readlines_app_or
    by (apply reopen_end, AnnexFacts.entries_md_end).
  by rewrite (PyFacts.readlines_full END_MARK).
Qed.

End RereadFacts.

(** * Further properties of the update *)

Module UpdateMore.

Lemma list_index_present md x : In x md -> exists i, list_index md x = Ok i.
Proof.
  intros H. destruct (list_index md x) as [i|e] eqn:E; [by exists i|].
  by apply IndexFacts.list_index_Raise in E.
Qed.

Lemma in_removelast {A} (ls : list A) l : In l (removelast ls) -> In l ls.
Proof.
  induction ls as [|a ls IH]; [done|]. destruct ls as [|b ls]; [done|].
  intros [<-|H]; [by left|right; by apply IH].
Qed.

(** Terminating the last line changes no line above it. *)
Lemma removelast_terminated s :
  removelast (readlines (terminated s)) = removelast (readlines s).
Proof.
  unfold terminated. destruct (endswith_nl s) eqn:E; [done|].
  destruct s as [|c s'] eqn:Es; [done|]. rewrite <- Es in *.
  destruct (LastLine.readlines_terminate s E) as (ls & l0 & -> & ->).
  { by rewrite Es. }
  by rewrite !removelast_last.
Qed.

(** The cleaning of what [main] has just written, the file opened again. *)
Lemma clean_reopen_new_index old_index publications :
  no_cr old_index = true ->
  (forall l, In l (readlines old_index) -> ~ marker_like l) ->
  ~ In END_MARK (readlines (reopen (entries_md publications))) ->
  clean_index_of_old_pubs (reopen (new_index old_index publications))
  = writelines (removelast (readlines old_index) ++ [nl])
  /\ readlines
       (clean_index_of_old_pubs (reopen (new_index old_index publications)))
     = removelast (readlines old_index) ++ [nl].
Proof.
  intros Hcr Hold Hentries.
  assert (no_marker (readlines (terminated old_index))) as Hkept.
  { apply (no_marker_terminated old_index); try done.
    - unfold terminated. by intros ->.
    - unfold terminated. by intros ->. }
  rewrite <- removelast_terminated.
  destruct (exists_last (BlockMore.terminated_nonempty old_index))
    as (ls & x & Hls).
  rewrite Hls, removelast_last. rewrite Hls in Hkept.
  apply (clean_block (reopen (new_index old_index publications)) ls x
           (DONT_TOUCH :: nl :: nl :: HEADING
              :: readlines (reopen (entries_md publications))) [nl]).
  - rewrite RereadFacts.readlines_reopen_new_index by done. rewrite Hls.
    by rewrite <- !app_assoc.
  - intros H. by destruct (Hkept _ H).
  - intros H. by destruct (Hkept _ H).
  - intros [H|[H|[H|[H|H]]]]; try discriminate H. done.
Qed.

(** Publications whose texts hold neither line terminator nor carriage
    return render no end marker line, also when the file is read again. *)
Lemma plain_entries_no_end publications :
  Forall one_line_fields publications ->
  no_cr (entries_md publications) = true ->
  ~ In END_MARK (readlines (reopen (entries_md publications))).
Proof.
  intros Hone Hcr. rewrite RereadFacts.reopen_no_cr by done.
  rewrite BlockMore.readlines_entries_md by done. intros Hin.
  apply (BlockMore.flat_entry_lines_no_marker _ _ Hin). right. by left.
Qed.

Lemma get_publications_Ok_link
    (author_social : string -> result (list social_link))
    (get_soup : string -> result PageElement) index_md limit publications :
  get_publications author_social get_soup index_md limit = Ok publications ->
  exists l, get_scholar_link author_social index_md = Ok (Some l).
Proof.
  unfold get_publications.
  destruct (get_scholar_link author_social index_md) as [[l|]|e];
    simpl; [|discriminate..].
  intros _. by exists l.
Qed.

Lemma nl_not_marker_like : ~ marker_like nl.
Proof. intros [H|[H|[H|H]]]; discriminate H. Qed.

End UpdateMore.

(** * One block after an update *)




(** X8.  After [main] has written the file both markers are there, so the
    next cleaning always rewrites it.  If the old content has no start
    marker line, the start marker found is the one of the new block, and it
    is not on the first line. *)
Theorem new_index_has_both_markers old_index publications :
  let md := readlines (new_index old_index publications) in
  (exists b e, list_index md START_MARK = Ok b /\ list_index md END_MARK = Ok e)
  /\ (~ In START_MARK (readlines (terminated old_index)) ->
      list_index md START_MARK
      = Ok (length (readlines (terminated old_index)))
      /\ 1 <= length (readlines (terminated old_index))).
Proof.
  intros md. unfold md.
  rewrite BlockMore.readlines_new_index_terminated. unfold annex_lines.
  split.
  - destruct (UpdateMore.list_index_present
                (readlines (terminated old_index)
                 ++ (START_MARK :: DONT_TOUCH :: nl :: nl :: HEADING
                       :: readlines (entries_md publications) ++ [END_MARK])
                 ++ [nl]) START_MARK) as [b Hb].
    { apply in_or_app. right. by left. }
    destruct (UpdateMore.list_index_present
                (readlines (terminated old_index)
                 ++ (START_MARK :: DONT_TOUCH :: nl :: nl :: HEADING
                       :: readlines (entries_md publications) ++ [END_MARK])
                 ++ [nl]) END_MARK) as [e He].
    { apply in_or_app. right. apply in_or_app. left.
      do 5 right. apply in_or_app. right. by left. }
    by exists b, e.
  - intros HS. split.
    + simpl. by apply IndexFacts.list_index_first.
    + pose proof (BlockMore.terminated_nonempty old_index).
      destruct (readlines (terminated old_index)); [done|simpl; lia].
Qed.

Lemma new_index_has_both_markers_witness :
  list_index (readlines (new_index "" [pub_A])) START_MARK
  = Ok (length (readlines (terminated "")))
  /\ 1 <= length (readlines (terminated "")).
Proof.
  apply (proj2 (new_index_has_both_markers "" [pub_A])). absent_line.
Defined.

(** The translation matters: with a carriage return before the text of the
    end marker in the authors, the file read again has an end marker line
    inside the block, and the cleaning stops there. *)
Lemma reread_finds_marker_after_cr :
  let written := new_index ("Bio" +:+ nl +:+ nl) [pub_with_cr] in
  ~ In END_MARK (readlines (entries_md [pub_with_cr]))
  /\ In END_MARK (readlines (reopen (entries_md [pub_with_cr])))
  /\ clean_index_of_old_pubs (reopen written)
     = "Bio" +:+ nl +:+ END_MARK +:+ nl.
Proof. repeat split; [absent_line|]. vm_compute. right. right. by left. Qed.

(** X9.  Cleaning the file [main] has just written, once it is opened
    again, for old content without marker lines and publications that, read
    again, render no end marker line: the lines of the old content come
    back save the last one, which is replaced by an empty line. *)
Theorem clean_after_new_index old_index publications :
  no_cr old_index = true ->
  (forall l, In l (readlines old_index) -> ~ marker_like l) ->
  ~ In END_MARK (readlines (reopen (entries_md publications))) ->
  clean_index_of_old_pubs (reopen (new_index old_index publications))
  = writelines (removelast (readlines old_index)) +:+ nl
  /\ readlines
       (clean_index_of_old_pubs (reopen (new_index old_index publications)))
     = removelast (readlines old_index) ++ [nl].
Proof.
  intros Hcr Hold Hentries.
  destruct (UpdateMore.clean_reopen_new_index _ _ Hcr Hold Hentries)
    as [Hw Hr].
  split; [|done]. rewrite Hw, PyFacts.writelines_app. simpl.
  by rewrite PyFacts.app_nil_r.
Qed.

Lemma clean_after_new_index_witness :
  clean_index_of_old_pubs
    (reopen
       (new_index ("Bio" +:+ nl +:+ "More" +:+ nl +:+ "End") [pub_A; pub_B]))
  = writelines (removelast (readlines ("Bio" +:+ nl +:+ "More" +:+ nl +:+ "End")))
    +:+ nl
  /\ readlines
       (clean_index_of_old_pubs
          (reopen
             (new_index ("Bio" +:+ nl +:+ "More" +:+ nl +:+ "End")
                [pub_A; pub_B])))
     = removelast (readlines ("Bio" +:+ nl +:+ "More" +:+ nl +:+ "End")) ++ [nl].
Proof.
  apply clean_after_new_index.
  - reflexivity.
  - intros l Hl. vm_compute in Hl.
    destruct Hl as [<-|[<-|[<-|[]]]]; intros [H|[H|[H|H]]]; discriminate H.
  - absent_line.
Defined.

(** X10.  Three successive runs of [main] for one author, the file opened
    again at each run, as far as each run reads the link and fetches its
    publications.  The document has no marker line at first, and the
    publications of the first two runs, read again, render no end marker
    line.  The first run appends the block to the document.  The second
    replaces the last line of the text by an empty line and the block by
    the new one.  The third leaves the text as the second left it: with the
    same publications it writes the same file. *)
Theorem main_runs_settle
    (author_social : string -> result (list social_link))
    (get_soup1 get_soup2 get_soup3 : string -> result PageElement)
    index_md l2 l3 p1 p2 p3 :
  no_cr index_md = true ->
  (forall l, In l (readlines index_md) -> ~ marker_like l) ->
  ~ In END_MARK (readlines (reopen (entries_md p1))) ->
  ~ In END_MARK (readlines (reopen (entries_md p2))) ->
  let kept := writelines (removelast (readlines index_md)) +:+ nl in
  let d1 := new_index index_md p1 in
  let d2 := new_index kept p2 in
  get_publications author_social get_soup1 index_md (Some 5%Z) = Ok p1 ->
  get_scholar_link author_social (reopen d1) = Ok (Some l2) ->
  get_publications author_social get_soup2 kept (Some 5%Z) = Ok p2 ->
  get_scholar_link author_social (reopen d2) = Ok (Some l3) ->
  get_publications author_social get_soup3 kept (Some 5%Z) = Ok p3 ->
  main_author author_social get_soup1 index_md = (d1, Ok tt)
  /\ main_author author_social get_soup2 (reopen d1) = (d2, Ok tt)
  /\ main_author author_social get_soup3 (reopen d2)
     = (new_index kept p3, Ok tt).
Proof.
  intros Hcr Hdoc Hp1 Hp2 kept d1 d2 Hrun1 Hlink2 Hrun2 Hlink3 Hrun3.
  assert (clean_index_of_old_pubs index_md = index_md) as Hclean0.
  { apply IndexFacts.clean_absent. left. intros H. apply (Hdoc _ H). by left. }
  destruct (UpdateMore.clean_reopen_new_index _ _ Hcr Hdoc Hp1) as [Hw1 Hr1].
  assert (clean_index_of_old_pubs (reopen d1) = kept) as Hclean1.
  { unfold d1, kept. rewrite Hw1, PyFacts.writelines_app. simpl.
    by rewrite PyFacts.app_nil_r. }
  assert (no_cr kept = true) as Hcrk.
  { unfold kept. rewrite RereadFacts.no_cr_app, RereadFacts.no_cr_writelines.
    rewrite RereadFacts.forallb_removelast; [done|].
    by apply RereadFacts.no_cr_readlines. }
  assert (readlines kept = removelast (readlines index_md) ++ [nl]) as Hrk.
  { rewrite <- Hclean1. exact Hr1. }
  assert (forall l, In l (readlines kept) -> ~ marker_like l) as Hk.
  { rewrite Hrk. intros l Hl. apply in_app_or in Hl as [Hl|[<-|[]]].
    - apply Hdoc. by apply UpdateMore.in_removelast.
    - apply UpdateMore.nl_not_marker_like. }
  destruct (UpdateMore.clean_reopen_new_index _ _ Hcrk Hk Hp2) as [Hw2 _].
  assert (clean_index_of_old_pubs (reopen d2) = kept) as Hclean2.
  { unfold d2. rewrite Hw2, Hrk, removelast_last.
    unfold kept. rewrite PyFacts.writelines_app. simpl.
    by rewrite PyFacts.app_nil_r. }
  split; [|split].
  - destruct (UpdateMore.get_publications_Ok_link _ _ _ _ _ Hrun1)
      as [l1 Hlink1].
    unfold main_author. by rewrite Hlink1, Hclean0, Hrun1.
  - unfold main_author. by rewrite Hlink2, Hclean1, Hrun2.
  - unfold main_author. by rewrite Hlink3, Hclean2, Hrun3.
Qed.

Lemma main_runs_settle_witness :
  let author_social := fun _ : string => Ok social_custom in
  let get_soup := fun _ : string => Ok page_A_B in
  let index_md := "---" +:+ nl +:+ "title: Ada" +:+ nl +:+ "---" +:+ nl
                  +:+ "Bio" +:+ nl +:+ "End" +:+ nl in
  let kept := writelines (removelast (readlines index_md)) +:+ nl in
  let d1 := new_index index_md [pub_A; pub_B] in
  let d2 := new_index kept [pub_A; pub_B] in
  main_author author_social get_soup index_md = (d1, Ok tt)
  /\ main_author author_social get_soup (reopen d1) = (d2, Ok tt)
  /\ main_author author_social get_soup (reopen d2)
     = (new_index kept [pub_A; pub_B], Ok tt).
Proof.
  apply (main_runs_settle (fun _ => Ok social_custom)
           (fun _ => Ok page_A_B) (fun _ => Ok page_A_B) (fun _ => Ok page_A_B)
           ("---" +:+ nl +:+ "title: Ada" +:+ nl +:+ "---" +:+ nl
            +:+ "Bio" +:+ nl +:+ "End" +:+ nl)
           "https://scholar.google.com/citations?user=ada"
           "https://scholar.google.com/citations?user=ada"
           [pub_A; pub_B] [pub_A; pub_B] [pub_A; pub_B]).
  - reflexivity.
  - intros l Hl. vm_compute in Hl.
    destruct Hl as [<-|[<-|[<-|[<-|[<-|[]]]]]];
      intros [H|[H|[H|H]]]; discriminate H.
  - absent_line.
  - absent_line.
  - reflexivity.
  - reflexivity.
  - reflexivity.
  - reflexivity.
  - reflexivity.
Defined.

(** * Further properties of the extraction *)

Module ExtractMore.

(** Whatever the limit, the loop returns the results it started with and an
    initial segment of the nodes found. *)
Lemma _find_all_prefix found limit generator results :
  exists n,
    _find_all found limit generator results
    = results ++ take n (List.filter found generator).
Proof.
  revert results. induction generator as [|i gen IH]; intros results; simpl.
  - exists 0. by rewrite app_nil_r.
  - destruct (found i); [|apply IH].
    assert (exists n, _find_all found limit gen (results ++ [i])
                      = results ++ take n (i :: List.filter found gen)) as Hgo.
    { destruct (IH (results ++ [i])) as [n Hn]. exists (S n).
      by rewrite Hn, <- app_assoc. }
    destruct limit as [n|]; [|done].
    destruct (negb (n =? 0)%Z && (Z.of_nat (length (results ++ [i])) >=? n)%Z);
      [|done].
    exists 1. simpl. by rewrite take_0.
Qed.

Lemma find_all_prefix tag name cls limit :
  exists n,
    find_all tag name cls limit
    = take n (List.filter (search name cls) (descendants tag)).
Proof. apply (_find_all_prefix _ limit _ []). Qed.

(** [find] is the first match in document order. *)
Lemma find_first_match tag name cls :
  find tag name cls = first_match tag name cls.
Proof.
  unfold find, first_match. change 1%Z with (Z.of_nat 1).
  rewrite (SoupFacts.find_all_limit tag name cls 1) by lia.
  unfold find_all. rewrite SoupFacts._find_all_unlimited. simpl.
  by destruct (List.filter (search name cls) (descendants tag)).
Qed.

(** [parse_row] raises nothing but [AttributeError]. *)
Lemma parse_row_Raise tr e : parse_row tr = Raise e -> e = AttributeError.
Proof.
  unfold parse_row.
  destruct (find tr "td" (Some "gsc_a_t")) as [td|]; simpl; [|by intros [= <-]].
  destruct (find td "a" None) as [a|]; simpl;
    destruct (find td "div" None) as [d|]; simpl;
    destruct (find tr "td" (Some "gsc_a_y")) as [y|]; simpl;
    intros [= <-] || discriminate; done.
Qed.

Lemma mapM_Raise {A B} (f : A -> result B) l e :
  mapM f l = Raise e -> exists x, In x l /\ f x = Raise e.
Proof.
  induction l as [|x l IH]; [discriminate|].
  rewrite SoupFacts.mapM_cons. destruct (f x) as [y|e'] eqn:Ex; simpl.
  - destruct (mapM f l) as [k|e'] eqn:El; simpl; [discriminate|].
    intros [= <-]. destruct (IH eq_refl) as (x' & Hin & Hx').
    exists x'. split; [by right|done].
  - intros [= <-]. exists x. split; [by left|done].
Qed.

Lemma mapM_In_Raise {A B} (f : A -> result B) l x e :
  In x l -> f x = Raise e -> exists e', mapM f l = Raise e'.
Proof.
  induction l as [|y l IH]; [done|]. intros [->|Hin] Hx.
  - exists e. by rewrite SoupFacts.mapM_cons, Hx.
  - rewrite SoupFacts.mapM_cons. destruct (f y) as [b|e'']; simpl.
    + destruct (IH Hin Hx) as [e' ->]. by exists e'.
    + by exists e''.
Qed.

Lemma in_take {A} (l : list A) n x : In x (take n l) -> In x l.
Proof.
  intros H. rewrite <- (firstn_skipn n l). apply in_or_app. by left.
Qed.

Section World.

Variable author_social : string -> result (list social_link).
Variable get_soup : string -> result PageElement.

(** With a profile link and the page fetched, [get_publications] is the
    comprehension over the rows [find_all] returns from that page. *)
Lemma get_publications_link index_md l soup limit :
  get_scholar_link author_social index_md = Ok (Some l) ->
  get_soup (l +:+ "&view_op=list_works&sortby=pubdate") = Ok soup ->
  get_publications author_social get_soup index_md limit
  = publications_of soup limit.
Proof.
  intros H Hsoup. unfold get_publications. rewrite H. simpl. by rewrite Hsoup.
Qed.

Lemma publications_of_positive soup k :
  0 < k ->
  publications_of soup (Some (Z.of_nat k))
  = mapM parse_row (take k (rows_of soup)).
Proof.
  intros Hk. unfold publications_of, rows_of.
  rewrite SoupFacts.find_all_limit by done.
  unfold find_all. by rewrite SoupFacts._find_all_unlimited.
Qed.

Lemma publications_of_prefix soup limit :
  exists n, publications_of soup limit = mapM parse_row (take n (rows_of soup)).
Proof.
  unfold publications_of, rows_of.
  destruct (find_all_prefix soup "tr" (Some "gsc_a_tr") limit) as [n ->].
  by exists n.
Qed.

End World.

End ExtractMore.

(** X11.  With a positive limit k, [get_publications] parses the first k
    rows of the page fetched and no other: rows after the k-th play no
    part, well-formed or not, and a page with fewer than k rows gives all
    of them.  On success the list has [min k N] publications. *)
Theorem get_publications_positive_limit
    (author_social : string -> result (list social_link))
    (get_soup : string -> result PageElement) index_md l soup k :
  get_scholar_link author_social index_md = Ok (Some l) ->
  get_soup (l +:+ "&view_op=list_works&sortby=pubdate") = Ok soup ->
  0 < k ->
  let rows := rows_of soup in
  get_publications author_social get_soup index_md (Some (Z.of_nat k))
  = mapM parse_row (take k rows)
  /\ (forall publications,
        get_publications author_social get_soup index_md (Some (Z.of_nat k))
        = Ok publications ->
        length publications = min k (length rows)).
Proof.
  intros Hlink Hsoup Hk rows.
  assert (get_publications author_social get_soup index_md (Some (Z.of_nat k))
          = mapM parse_row (take k rows)) as Heq.
  { rewrite (ExtractMore.get_publications_link _ _ _ _ _ _ Hlink Hsoup).
    by apply ExtractMore.publications_of_positive. }
  split; [done|]. intros publications Hpubs. rewrite Heq in Hpubs.
  by rewrite (SoupFacts.mapM_length _ _ _ Hpubs), length_take.
Qed.

Lemma get_publications_positive_limit_witness :
  let author_social := fun _ : string => Ok social_custom in
  let get_soup := fun _ : string => Ok page_A_B in
  let rows := rows_of page_A_B in
  get_publications author_social get_soup "" (Some (Z.of_nat 5))
  = mapM parse_row (take 5 rows)
  /\ (forall publications,
        get_publications author_social get_soup "" (Some (Z.of_nat 5))
        = Ok publications ->
        length publications = min 5 (length rows)).
Proof.
  apply (get_publications_positive_limit (fun _ => Ok social_custom)
           (fun _ => Ok page_A_B) ""
           "https://scholar.google.com/citations?user=ada" page_A_B 5).
  - reflexivity.
  - reflexivity.
  - lia.
Defined.

(** X12.  Whatever the limit ([None], zero, negative or positive), the
    publications [get_publications] returns are those of an initial segment
    of the rows of the page fetched, in document order. *)
Theorem get_publications_initial_segment
    (author_social : string -> result (list social_link))
    (get_soup : string -> result PageElement)
    index_md l soup limit publications :
  get_scholar_link author_social index_md = Ok (Some l) ->
  get_soup (l +:+ "&view_op=list_works&sortby=pubdate") = Ok soup ->
  get_publications author_social get_soup index_md limit = Ok publications ->
  exists n,
    mapM parse_row (take n (rows_of soup)) = Ok publications
    /\ length publications <= length (rows_of soup).
Proof.
  intros Hlink Hsoup Hpubs.
  rewrite (ExtractMore.get_publications_link _ _ _ _ _ _ Hlink Hsoup) in Hpubs.
  destruct (ExtractMore.publications_of_prefix soup limit) as [n Hn].
  rewrite Hn in Hpubs. exists n. split; [done|].
  rewrite (SoupFacts.mapM_length _ _ _ Hpubs), length_take. lia.
Qed.

Lemma get_publications_initial_segment_witness :
  exists n,
    mapM parse_row (take n (rows_of page_A_B)) = Ok [pub_A]
    /\ length [pub_A] <= length (rows_of page_A_B).
Proof.
  apply (get_publications_initial_segment (fun _ => Ok social_custom)
           (fun _ => Ok page_A_B) ""
           "https://scholar.google.com/citations?user=ada" page_A_B
           (Some (-3)%Z) [pub_A]); reflexivity.
Defined.

(** X13.  Every failure of [get_publications] is one of four: the front
    matter cannot be read (the exception of the parser), the author has no
    customised link ([TypeError], from adding a string to [None]), the
    fetch of the page raises (the exception of [requests.get]), or one of
    the selected rows of the page fetched lacks an element
    ([AttributeError]). *)
Theorem get_publications_failures
    (author_social : string -> result (list social_link))
    (get_soup : string -> result PageElement) index_md limit e :
  get_publications author_social get_soup index_md limit = Raise e ->
  author_social index_md = Raise e
  \/ (e = TypeError /\ get_scholar_link author_social index_md = Ok None)
  \/ (exists l,
        get_scholar_link author_social index_md = Ok (Some l)
        /\ get_soup (l +:+ "&view_op=list_works&sortby=pubdate") = Raise e)
  \/ (e = AttributeError
      /\ exists l soup row,
           get_scholar_link author_social index_md = Ok (Some l)
           /\ get_soup (l +:+ "&view_op=list_works&sortby=pubdate") = Ok soup
           /\ In row (rows_of soup)
           /\ parse_row row = Raise AttributeError).
Proof.
  unfold get_publications, get_scholar_link.
  destruct (author_social index_md) as [social|e'] eqn:Hsocial; simpl;
    [|intros [= <-]; by left].
  destruct (scholar_link_of social) as [l|] eqn:Hlink; simpl;
    [|intros [= <-]; right; by left].
  destruct (get_soup (l +:+ "&view_op=list_works&sortby=pubdate"))
    as [soup|e'] eqn:Hsoup; simpl.
  2: { intros [= <-]. right. right. left. by exists l. }
  intros Hpubs. right. right. right.
  destruct (ExtractMore.publications_of_prefix soup limit) as [n Hn].
  rewrite Hn in Hpubs. apply ExtractMore.mapM_Raise in Hpubs as (row & Hin & Hrow).
  pose proof (ExtractMore.parse_row_Raise _ _ Hrow) as ->.
  split; [done|]. exists l, soup, row. repeat split; try done.
  by eapply ExtractMore.in_take.
Qed.

Lemma get_publications_failures_witness :
  (fun _ : string => Ok social_custom) "" = Raise RequestException
  \/ (RequestException = TypeError
      /\ get_scholar_link (fun _ => Ok social_custom) "" = Ok None)
  \/ (exists l,
        get_scholar_link (fun _ => Ok social_custom) "" = Ok (Some l)
        /\ (fun _ : string => @Raise PageElement RequestException)
             (l +:+ "&view_op=list_works&sortby=pubdate")
           = Raise RequestException)
  \/ (RequestException = AttributeError
      /\ exists l soup row,
           get_scholar_link (fun _ => Ok social_custom) "" = Ok (Some l)
           /\ (fun _ : string => @Raise PageElement RequestException)
                (l +:+ "&view_op=list_works&sortby=pubdate")
              = Ok soup
           /\ In row (rows_of soup)
           /\ parse_row row = Raise AttributeError).
Proof.
  apply (get_publications_failures (fun _ => Ok social_custom)
           (fun _ => Raise RequestException) "" (Some 5%Z) RequestException).
  reflexivity.
Defined.

(** X14.  One row without the expected elements among the rows selected is
    enough for [get_publications] to raise [AttributeError]: no partial
    list is returned, whatever the other rows hold. *)
Theorem get_publications_bad_row
    (author_social : string -> result (list social_link))
    (get_soup : string -> result PageElement) index_md l soup k row :
  get_scholar_link author_social index_md = Ok (Some l) ->
  get_soup (l +:+ "&view_op=list_works&sortby=pubdate") = Ok soup ->
  0 < k ->
  In row (take k (rows_of soup)) ->
  parse_row row = Raise AttributeError ->
  get_publications author_social get_soup index_md (Some (Z.of_nat k))
  = Raise AttributeError.
Proof.
  intros Hlink Hsoup Hk Hin Hrow.
  rewrite (ExtractMore.get_publications_link _ _ _ _ _ _ Hlink Hsoup).
  rewrite ExtractMore.publications_of_positive by done.
  destruct (ExtractMore.mapM_In_Raise _ _ _ _ Hin Hrow) as [e He].
  rewrite He. f_equal.
  apply ExtractMore.mapM_Raise in He as (row' & _ & Hrow').
  by apply ExtractMore.parse_row_Raise in Hrow'.
Qed.

Lemma get_publications_bad_row_witness :
  get_publications (fun _ => Ok social_custom)
    (fun _ => Ok (sample_page [sample_row "A" "X, Y" "2020";
                               Tag "tr" ["gsc_a_tr"] []]))
    "" (Some (Z.of_nat 5))
  = Raise AttributeError.
Proof.
  apply (get_publications_bad_row (fun _ => Ok social_custom)
           (fun _ => Ok (sample_page [sample_row "A" "X, Y" "2020";
                                      Tag "tr" ["gsc_a_tr"] []]))
           "" "https://scholar.google.com/citations?user=ada"
           (sample_page [sample_row "A" "X, Y" "2020";
                         Tag "tr" ["gsc_a_tr"] []])
           5 (Tag "tr" ["gsc_a_tr"] [])).
  - reflexivity.
  - reflexivity.
  - lia.
  - right. by left.
  - reflexivity.
Defined.

(** X15.  [parse_row] returns a publication exactly when the row has, in
    document order, a first cell [td.gsc_a_t] with a link and a [div]
    below it, and a first cell [td.gsc_a_y]: the title is the text of the
    first link of the title cell, the authors the text of its first [div],
    the year the text of the year cell.  Otherwise it raises
    [AttributeError], and nothing else. *)
Theorem parse_row_spec tr :
  (forall p,
      parse_row tr = Ok p <->
      exists td a d y,
        first_match tr "td" (Some "gsc_a_t") = Some td
        /\ first_match td "a" None = Some a
        /\ first_match td "div" None = Some d
        /\ first_match tr "td" (Some "gsc_a_y") = Some y
        /\ p = {| title := text a; authors := text d; year := text y |})
  /\ (forall e, parse_row tr = Raise e -> e = AttributeError).
Proof.
  split; [|apply ExtractMore.parse_row_Raise].
  intros p. unfold parse_row. rewrite !ExtractMore.find_first_match.
  destruct (first_match tr "td" (Some "gsc_a_t")) as [td|] eqn:Htd; simpl.
  2: { split; [discriminate|]. intros (? & ? & ? & ? & ? & _). congruence. }
  rewrite !ExtractMore.find_first_match.
  destruct (first_match td "a" None) as [a|] eqn:Ha; simpl.
  2: { split; [discriminate|].
       intros (? & ? & ? & ? & [= <-] & ? & _). congruence. }
  destruct (first_match td "div" None) as [d|] eqn:Hd; simpl.
  2: { split; [discriminate|].
       intros (? & ? & ? & ? & [= <-] & _ & ? & _). congruence. }
  destruct (first_match tr "td" (Some "gsc_a_y")) as [y|] eqn:Hy; simpl.
  2: { split; [discriminate|].
       intros (? & ? & ? & ? & _ & _ & _ & ? & _). congruence. }
  split.
  - intros [= <-]. by exists td, a, d, y.
  - intros (? & ? & ? & ? & [= <-] & Ha' & Hd' & Hy' & ->). congruence.
Qed.

(** * Further properties of the run *)

Module RunMore.

Lemma get_publications_length
    (author_social : string -> result (list social_link))
    (get_soup : string -> result PageElement) index_md k publications :
  0 < k ->
  get_publications author_social get_soup index_md (Some (Z.of_nat k))
  = Ok publications ->
  length publications <= k.
Proof.
  intros Hk. unfold get_publications, get_scholar_link.
  destruct (author_social index_md) as [social|e]; simpl; [|discriminate].
  destruct (scholar_link_of social) as [l|]; simpl; [|discriminate].
  destruct (get_soup (l +:+ "&view_op=list_works&sortby=pubdate"))
    as [soup|e]; simpl; [|discriminate].
  rewrite ExtractMore.publications_of_positive by done. intros H.
  rewrite (SoupFacts.mapM_length _ _ _ H), length_take. lia.
Qed.

End RunMore.

(** X16.  The four ways an iteration of [main] can end.  If the link cannot
    be read, the exception leaves the file untouched.  Without a customised
    link the file is left cleaned.  With a link, a failure of
    [get_publications] leaves the file cleaned, without a block; otherwise
    the file is the update with the publications fetched, at most five. *)
Theorem main_author_outcomes
    (author_social : string -> result (list social_link))
    (get_soup : string -> result PageElement) index_md :
  let run := main_author author_social get_soup index_md in
  let cleaned := clean_index_of_old_pubs index_md in
  (forall e, get_scholar_link author_social index_md = Raise e ->
             run = (index_md, Raise e))
  /\ (get_scholar_link author_social index_md = Ok None ->
      run = (cleaned, Ok tt))
  /\ (forall l, get_scholar_link author_social index_md = Ok (Some l) ->
        (forall e,
            get_publications author_social get_soup cleaned (Some 5%Z)
            = Raise e ->
            run = (cleaned, Raise e))
        /\ (forall publications,
              get_publications author_social get_soup cleaned (Some 5%Z)
              = Ok publications ->
              run = (updateDocument index_md publications, Ok tt)
              /\ length publications <= 5)).
Proof.
  intros run cleaned. unfold run, main_author. split; [|split].
  - by intros e ->.
  - by intros ->.
  - intros l ->. fold cleaned. split.
    + by intros e ->.
    + intros publications Hpubs. rewrite Hpubs. split; [done|].
      apply (RunMore.get_publications_length author_social get_soup
               cleaned 5 publications); [lia|exact Hpubs].
Qed.

Lemma main_author_outcomes_witness :
  main_author sample_author_social (fun _ => Ok page_A_B) ""
  = ("", Raise KeyError)
  /\ main_author sample_author_social (fun _ => Ok page_A_B)
       ("Bio" +:+ nl +:+ nl +:+ annex [pub_A] +:+ nl)
     = (clean_index_of_old_pubs ("Bio" +:+ nl +:+ nl +:+ annex [pub_A] +:+ nl),
        Ok tt)
  /\ (main_author (fun _ => Ok social_custom) (fun _ => Ok page_A_B)
        ("Bio" +:+ nl)
      = (updateDocument ("Bio" +:+ nl) [pub_A; pub_B], Ok tt)
      /\ length [pub_A; pub_B] <= 5).
Proof.
  split; [|split].
  - apply (proj1 (main_author_outcomes sample_author_social
                    (fun _ => Ok page_A_B) "")).
    reflexivity.
  - apply (proj1 (proj2 (main_author_outcomes sample_author_social
                           (fun _ => Ok page_A_B)
                           ("Bio" +:+ nl +:+ nl +:+ annex [pub_A] +:+ nl)))).
    reflexivity.
  - apply (proj2 (proj2 (proj2 (main_author_outcomes
                                  (fun _ => Ok social_custom)
                                  (fun _ => Ok page_A_B) ("Bio" +:+ nl)))
                   "https://scholar.google.com/citations?user=ada"
                   eq_refl)).
    reflexivity.
Defined.

(** X17.  When every iteration ends without exception, [main] has run
    [main_author] on every author, each file on its own. *)
Theorem main_all_authors
    (author_social : string -> result (list social_link))
    (get_soup : string -> result PageElement) all_author_folders :
  Forall (fun author => snd (main_author author_social get_soup author) = Ok tt)
         all_author_folders ->
  main author_social get_soup all_author_folders
  = (map (fun author => fst (main_author author_social get_soup author))
         all_author_folders,
     Ok tt).
Proof.
  induction 1 as [|author folders Hauthor Hrest IH]; [done|].
  simpl. destruct (main_author author_social get_soup author) as [d [[]|e]];
    simpl in *; [|discriminate].
  by rewrite IH.
Qed.

Lemma main_all_authors_witness :
  main sample_author_social (fun _ => Ok page_A_B)
    ["Bio" +:+ nl; "Bio" +:+ nl +:+ nl +:+ annex [pub_A] +:+ nl]
  = (map (fun author =>
            fst (main_author sample_author_social (fun _ => Ok page_A_B) author))
         ["Bio" +:+ nl; "Bio" +:+ nl +:+ nl +:+ annex [pub_A] +:+ nl],
     Ok tt).
Proof.
  apply main_all_authors. repeat constructor.
Defined.

(** X18.  The first iteration that raises ends [main] with that exception:
    the authors before it have been processed, the failing author's file is
    as the iteration left it, and the files of the authors after it are
    untouched. *)
Theorem main_stops_at_first_failure
    (author_social : string -> result (list social_link))
    (get_soup : string -> result PageElement) before bad after e :
  Forall (fun author => snd (main_author author_social get_soup author) = Ok tt)
         before ->
  snd (main_author author_social get_soup bad) = Raise e ->
  main author_social get_soup (before ++ bad :: after)
  = (map (fun author => fst (main_author author_social get_soup author)) before
     ++ fst (main_author author_social get_soup bad) :: after,
     Raise e).
Proof.
  intros Hbefore Hbad.
  induction Hbefore as [|author folders Hauthor Hrest IH]; simpl.
  - destruct (main_author author_social get_soup bad) as [d [[]|e']];
      simpl in *; [discriminate|]. by injection Hbad as ->.
  - destruct (main_author author_social get_soup author) as [d [[]|e']];
      simpl in *; [|discriminate].
    by rewrite IH.
Qed.

Lemma main_stops_at_first_failure_witness :
  main sample_author_social (fun _ => Ok page_A_B)
    (["Bio" +:+ nl] ++ "" :: ["Bio" +:+ nl +:+ nl +:+ annex [pub_A] +:+ nl])
  = (map (fun author =>
            fst (main_author sample_author_social (fun _ => Ok page_A_B) author))
         ["Bio" +:+ nl]
     ++ fst (main_author sample_author_social (fun _ => Ok page_A_B) "")
        :: ["Bio" +:+ nl +:+ nl +:+ annex [pub_A] +:+ nl],
     Raise KeyError).
Proof.
  apply main_stops_at_first_failure.
  - repeat constructor.
  - reflexivity.
Defined.

(** X19.  The last entry of the [social] list decides.  An entry with
    another icon appended to the list changes nothing; an entry
    ["graduation-cap"] appended to it gives its own link, or [None] if that
    link is the default link, whatever entries stand before it (a customised
    link listed before a default one is hidden).  Entries with other icons
    can be left out altogether, and an empty list gives [None]. *)
Theorem scholar_link_last_entry social l :
  scholar_link_of (social ++ [l])
  = (if String.eqb (icon l) "graduation-cap"
     then if String.eqb (link l) default_link then None else Some (link l)
     else scholar_link_of social)
  /\ scholar_link_of (filter (fun l => icon l = "graduation-cap") social)
     = scholar_link_of social
  /\ scholar_link_of [] = None.
Proof.
  split; [|split; [|done]].
  - unfold scholar_link_of. rewrite social_dict_snoc, lookup_insert.
    destruct (String.eqb_spec (icon l) "graduation-cap") as [Hi|Hi].
    + by rewrite decide_True.
    + by rewrite decide_False.
  - unfold scholar_link_of. rewrite !social_dict_lookup.
    by rewrite list_filter_filter_l.
Qed.

Lemma in_drop {A} (l : list A) n x : In x (drop n l) -> In x l.
Proof.
  intros H. rewrite <- (firstn_skipn n l). apply in_or_app. by right.
Qed.

(** X20.  [clean_index_of_old_pubs] writes no line of its own: every line
    of the document afterwards is a line the document had before, whichever
    case the markers are in. *)
Theorem clean_invents_no_line index_md l :
  In l (readlines (clean_index_of_old_pubs index_md)) ->
  In l (readlines index_md).
Proof.
  destruct (clean_md (readlines index_md)) as [lines|e] eqn:Hclean.
  - destruct (IndexFacts.readlines_clean _ _ Hclean) as [_ ->].
    unfold clean_md in Hclean.
    apply IndexFacts.bind_Ok in Hclean as (b & _ & Hclean).
    apply IndexFacts.bind_Ok in Hclean as (e & _ & [= <-]).
    intros H. apply in_app_or in H as [H|H].
    + unfold slice_to in H.
      destruct (Z.of_nat b - 1 <? 0)%Z; by apply ExtractMore.in_take in H.
    + unfold slice_from in H.
      destruct (Z.of_nat e + 1 <? 0)%Z; by apply in_drop in H.
  - unfold clean_index_of_old_pubs. by rewrite Hclean.
Qed.

Lemma clean_invents_no_line_witness :
  In ("End" +:+ nl)
     (readlines ("Bio" +:+ nl +:+ nl +:+ START_MARK +:+ END_MARK
                 +:+ "End" +:+ nl)).
Proof.
  apply clean_invents_no_line. vm_compute. by right; left.
Defined.
